(** * ResumeAssistant: the resume classifier / renderer and the request
      handlers of [app.py], embedded in Rocq.

    The Python program is embedded shallowly:
    - a Python [str] is the list of its Unicode code points ([list N]);
    - the Unicode tables behind [str.strip], [str.isupper] and [str.upper]
      are a parameter ([Unicode]); theorems hold for every table, or for
      every table that agrees with Python's on the characters the code
      itself names (ASCII and the bullet U+2022);
    - a python-docx paragraph is a record (style name, runs, spacing), a
      document the list of its paragraphs;
    - Python control flow that can leave a function abnormally is an
      [outcome]: a value, an exception caught by [except Exception], or
      [SystemExit], which [except Exception] does not catch;
    - dictionaries ([user_info], [request.files], [request.form]) are
      [gmap]s keyed by Python strings. *)

From Stdlib Require Import ZArith NArith Lia Bool.
From Stdlib Require Strings.String Strings.Ascii.
From stdpp Require Import base option list strings gmap.

Local Open Scope N_scope.

(** ** Python strings *)

Module Py.

Definition str := list N.

(** Code points of an ASCII literal. *)
Fixpoint lit (s : String.string) : str :=
  match s with
  | String.EmptyString => []
  | String.String c s' => Ascii.N_of_ascii c :: lit s'
  end.
Arguments lit s%_string.

Definition bullet : N := 8226.   (* U+2022 *)
Definition at_sign : N := 64.
Definition tab : N := 9.
Definition newline : N := 10.
Definition colon : N := 58.
Definition space : N := 32.

Fixpoint eqb (a b : str) : bool :=
  match a, b with
  | [], [] => true
  | x :: a', y :: b' => N.eqb x y && eqb a' b'
  | _, _ => false
  end.

(** [s.startswith(p)] *)
Fixpoint startswith (s p : str) {struct p} : bool :=
  match p, s with
  | [], _ => true
  | x :: p', y :: s' => N.eqb x y && startswith s' p'
  | _ :: _, [] => false
  end.

(** [needle in hay] *)
Fixpoint contains (needle hay : str) : bool :=
  startswith hay needle ||
  match hay with
  | [] => false
  | _ :: hay' => contains needle hay'
  end.

(** [sep.join(parts)] *)
Fixpoint join (sep : str) (parts : list str) : str :=
  match parts with
  | [] => []
  | [x] => x
  | x :: rest => x ++ sep ++ join sep rest
  end.

(** [s.split(sep)] for a non-empty [sep]: a left-to-right scan for
    non-overlapping occurrences.  [skip] counts the characters of a
    separator just matched that are still to be passed over, [cur] holds
    the current piece in reverse. *)
Fixpoint split_go (sep : str) (skip : nat) (cur : str) (s : str) : list str :=
  match s with
  | [] => [rev cur]
  | c :: s' =>
      match skip with
      | S k => split_go sep k cur s'
      | O =>
          if startswith s sep
          then rev cur :: split_go sep (Nat.pred (length sep)) [] s'
          else split_go sep O (c :: cur) s'
      end
  end.

Definition split (sep s : str) : list str := split_go sep O [] s.

(** The first occurrence of [sep] in [s]: the text before it and the text
    after it. *)
Fixpoint find_sep (sep s : str) : option (str * str) :=
  if startswith s sep then Some ([], drop (length sep) s)
  else match s with
       | [] => None
       | c :: s' =>
           match find_sep sep s' with
           | Some (a, b) => Some (c :: a, b)
           | None => None
           end
       end.

(** [s.split(sep, 1)] *)
Definition split1 (sep s : str) : list str :=
  match find_sep sep s with
  | Some (a, b) => [a; b]
  | None => [s]
  end.

(** [s.rsplit(sep, 1)]: the last occurrence, found as the first one of
    the reversed separator in the reversed text. *)
Definition rsplit1 (sep s : str) : list str :=
  match find_sep (rev sep) (rev s) with
  | Some (a, b) => [rev b; rev a]
  | None => [s]
  end.

(** [s.endswith(p)] *)
Definition endswith (s p : str) : bool := startswith (rev s) (rev p).

(** [n] in decimal on exactly two, respectively four, digits. *)
Definition digit (n : N) : N := 48 + n mod 10.
Definition dec2 (n : N) : str := [digit (n / 10); digit n].
Definition dec4 (n : N) : str := [digit (n / 1000); digit (n / 100); digit (n / 10); digit n].

(** The character tables of the Python runtime. [toupper] is the full
    upper-case mapping (one character may map to several). *)
Record Unicode := {
  isspace : N -> bool;
  islower : N -> bool;
  isupper_char : N -> bool;
  istitle : N -> bool;
  toupper : N -> list N;
  tolower : N -> list N
}.

(** Drop the longest prefix whose characters satisfy [f]. *)
Fixpoint dropwhile (f : N -> bool) (s : str) : str :=
  match s with
  | [] => []
  | c :: s' => if f c then dropwhile f s' else s
  end.

Section WithTables.
Context (U : Unicode).

Definition lstrip (s : str) : str := dropwhile (isspace U) s.
Definition rstrip (s : str) : str := rev (dropwhile (isspace U) (rev s)).

(** [s.strip()] *)
Definition strip (s : str) : str := rstrip (lstrip s).

(** [s.isupper()]: no lower-case or title-case character and at least
    one upper-case character. (CPython answers a one-character string
    from the upper-case table alone; the two agree as no character is
    both upper case and lower or title case.) *)
Definition isupper (s : str) : bool :=
  forallb (fun c => negb (islower U c || istitle U c)) s
  && existsb (isupper_char U) s.

(** [s.upper()] and [s.lower()] *)
Definition upper (s : str) : str := flat_map (toupper U) s.
Definition lower (s : str) : str := flat_map (tolower U) s.
End WithTables.

(** Python's tables restricted to ASCII; every other code point is
    taken as uncased, not white space and its own upper case. This is
    what Python answers on the ASCII range and on U+2022. *)
Definition ascii_isspace (c : N) : bool :=
  ((9 <=? c) && (c <=? 13)) || ((28 <=? c) && (c <=? 32)).
Definition ascii_islower (c : N) : bool := (97 <=? c) && (c <=? 122).
Definition ascii_isupper (c : N) : bool := (65 <=? c) && (c <=? 90).
Definition ascii_toupper (c : N) : list N :=
  if ascii_islower c then [c - 32] else [c].
Definition ascii_tolower (c : N) : list N :=
  if ascii_isupper c then [c + 32] else [c].

Definition ascii_tables : Unicode := {|
  isspace := ascii_isspace;
  islower := ascii_islower;
  isupper_char := ascii_isupper;
  istitle := fun _ => false;
  toupper := ascii_toupper;
  tolower := ascii_tolower
|}.

(** What a table must say about the characters the program names. *)
Record agrees_on_ascii (U : Unicode) : Prop := {
  agree_space : forall c, c < 128 -> isspace U c = ascii_isspace c;
  agree_lower : forall c, c < 128 -> islower U c = ascii_islower c;
  agree_upper : forall c, c < 128 -> isupper_char U c = ascii_isupper c;
  agree_title : forall c, c < 128 -> istitle U c = false;
  bullet_not_space : isspace U bullet = false
}.

End Py.

(** ** Outcomes of Python code *)

Inductive exn :=
| ValueError (msg : Py.str)
| IndexError (msg : Py.str)
| KeyError (key : Py.str)
| LibraryError (msg : Py.str).   (* raised inside python-docx, Flask, the OS *)

(** [str(e)] *)
Definition exn_message (e : exn) : Py.str :=
  match e with
  | ValueError m | IndexError m | KeyError m | LibraryError m => m
  end.

(** A computation returns, raises an [Exception], or raises [SystemExit]
    (the builtin [exit(n)]), which derives from [BaseException] only. *)
Inductive outcome (A : Type) :=
| Ret (a : A)
| Raise (e : exn)
| SystemExit (code : Z).
Arguments Ret {A} a.
Arguments Raise {A} e.
Arguments SystemExit {A} code.

#[global] Instance outcome_ret : MRet outcome := fun A a => Ret a.
#[global] Instance outcome_bind : MBind outcome := fun A B f m =>
  match m with
  | Ret a => f a
  | Raise e => Raise e
  | SystemExit c => SystemExit c
  end.

(** [try: body  except Exception as e: handler(e)] *)
Definition try_except {A} (body : outcome A) (handler : exn -> outcome A) : outcome A :=
  match body with
  | Ret a => Ret a
  | Raise e => handler e
  | SystemExit c => SystemExit c
  end.

(** [for x in xs: st = body st x] with early exit on an exception. *)
Fixpoint for_each {S X} (body : S -> X -> outcome S) (st : S) (xs : list X) : outcome S :=
  match xs with
  | [] => Ret st
  | x :: xs' => st' ← body st x; for_each body st' xs'
  end.

(** [xs[i]] *)
Definition item {A} (xs : list A) (i : nat) : outcome A :=
  match xs !! i with
  | Some x => Ret x
  | None => Raise (IndexError (Py.lit "list index out of range"))
  end.

(** [a, b = xs] *)
Definition unpack2 {A} (xs : list A) : outcome (A * A) :=
  match xs with
  | [a; b] => Ret (a, b)
  | _ => Raise (ValueError (Py.lit "wrong number of values to unpack"))
  end.

(** ** python-docx documents *)

Module Docx.
Import Py.

Record run := Run { run_text : str; run_bold : bool }.

Record paragraph := Paragraph {
  style : str;                 (* [p.style.name] *)
  runs : list run;
  space_before : option N      (* [p.paragraph_format.space_before], in points *)
}.

(** [p.text]: the text of the runs, concatenated. *)
Definition text (p : paragraph) : str := concat (map run_text (runs p)).

Definition empty_paragraph : paragraph :=
  {| style := lit "Normal"; runs := []; space_before := None |}.

(** A paragraph of an uploaded document holding [t]. *)
Definition plain (t : str) : paragraph :=
  {| style := lit "Normal"; runs := [Run t false]; space_before := None |}.

(** [p.style = name] *)
Definition set_style (name : str) (p : paragraph) : paragraph :=
  {| style := name; runs := runs p; space_before := space_before p |}.

(** [p.paragraph_format.space_before = Pt(n)] *)
Definition set_space_before (n : N) (p : paragraph) : paragraph :=
  {| style := style p; runs := runs p; space_before := Some n |}.

(** [p.text = t]: the content is replaced by one run. *)
Definition set_text (t : str) (p : paragraph) : paragraph :=
  {| style := style p; runs := [Run t false]; space_before := space_before p |}.

(** [p.add_run(t)] and [p.add_run(t).bold = True] *)
Definition add_run (t : str) (b : bool) (p : paragraph) : paragraph :=
  {| style := style p; runs := runs p ++ [Run t b]; space_before := space_before p |}.

(** [document.add_paragraph()]: the new paragraph is the last one. *)
Definition add_paragraph (document : list paragraph) : list paragraph :=
  document ++ [empty_paragraph].

(** Writing through the reference [p] returned by [add_paragraph]: [p]
    is the last paragraph of the document. *)
Definition store_last (document : list paragraph) (p : paragraph) : list paragraph :=
  <[Nat.pred (length document) := p]> document.

(** python-docx keeps the text of a run in XML text nodes (tab, line
    feed and carriage return become elements of their own). Text holding
    a character outside the [Char] production of XML 1.0, that is a
    control character other than these three, a surrogate, U+FFFE or
    U+FFFF, is refused with [ValueError]. *)
Definition xml_char (c : N) : bool :=
  (c =? 9) || (c =? 10) || (c =? 13)
  || ((32 <=? c) && (c <=? 55295))          (* U+0020 .. U+D7FF *)
  || ((57344 <=? c) && (c <=? 65533))       (* U+E000 .. U+FFFD *)
  || ((65536 <=? c) && (c <=? 1114111)).    (* U+10000 .. U+10FFFF *)

Definition xml_compatible (t : str) : bool := forallb xml_char t.

Definition not_xml_compatible : exn :=
  ValueError (lit "All strings must be XML compatible: Unicode or ASCII, no NULL bytes or control characters").

(** [document.add_paragraph(t)]: a new last paragraph holding [t] in the
    default style, unless [t] is refused. *)
Definition add_text_paragraph (document : list paragraph) (t : str)
    : outcome (list paragraph) :=
  if xml_compatible t then Ret (document ++ [plain t])
  else Raise not_xml_compatible.

End Docx.

(** ** The resume classifier and renderer: [format_resume] *)

Module Resume.
Import Py Docx.

(** The branch of the [if]/[elif] chain that handled a line. *)
Inductive Role :=
| Name | ContactLine | SectionHeader | InstitutionRow
| BulletEntry | LabelValue | PlainText.

#[global] Instance Role_eq_dec : EqDecision Role.
Proof. solve_decision. Defined.

(** The loop state: the output document (mutated in place by the
    source), the local [previous_style], and, as a ghost field, the role
    of each paragraph emitted so far. *)
Record fstate := FState {
  document : list paragraph;
  previous_style : option str;
  roles : list Role
}.

(** [if previous_style:] *)
Definition truthy (o : option str) : bool :=
  match o with
  | Some (_ :: _) => true
  | _ => false
  end.

(** [previous_style == name] *)
Definition style_is (o : option str) (name : str) : bool :=
  match o with
  | Some s => Py.eqb s name
  | None => false
  end.

Definition is_nil {A} (l : list A) : bool :=
  match l with [] => true | _ => false end.

Section WithTables.
Context (U : Unicode).

(** The guard of the section-header branch. *)
Definition is_section (text : str) : bool :=
  isupper U text && negb (contains [bullet] text) && negb (contains [at_sign] text).

(** The guard of the contact branch. *)
Definition is_contact (text : str) : bool :=
  contains [at_sign] text && contains [bullet] text.

Definition emit (st : fstate) (doc1 : list paragraph) (p : paragraph)
    (prev : option str) (r : Role) : fstate :=
  {| document := store_last doc1 p;
     previous_style := prev;
     roles := roles st ++ [r] |}.

(** The body of the [else:] branch (regular content). *)
Definition format_content (st : fstate) (doc1 : list paragraph) (text : str)
    : outcome fstate :=
  let p := set_style (lit "ContentStyle") empty_paragraph in
  if style_is (previous_style st) (lit "SectionStyle")
     && contains (lit "University") text then
    let p := set_style (lit "EducationStyle") p in
    let parts := split [tab] text in
    p ← (if (2 <=? length parts)%nat then
           p0 ← item parts 0;
           p1 ← item parts 1;
           let p := add_run p0 true p in
           let p := add_run (tab :: p1) false p in
           if (2 <? length parts)%nat then
             p2 ← item parts 2;
             mret (add_run (tab :: p2) false p)
           else mret p
         else mret p);
    mret (emit st doc1 p (Some (style p)) InstitutionRow)
  else if startswith text [bullet] then
    let text := strip U (tail text) in
    p ← (if contains (lit " - ") text then
           '(title, description) ← unpack2 (split1 (lit " - ") text);
           let p := add_run (bullet :: lit " ") true p in
           let p := add_run (strip U title) true p in
           mret (add_run (lit " - " ++ strip U description) false p)
         else
           let p := add_run (bullet :: lit " ") true p in
           mret (add_run text false p));
    mret (emit st doc1 p (Some (style p)) BulletEntry)
  else if style_is (previous_style st) (lit "SectionStyle")
          && (contains (lit "Courses") text || contains (lit "Skills") text) then
    '(label, courses) ← (if contains [colon] text
                         then unpack2 (split1 [colon] text)
                         else mret (text, []));
    let p := add_run (label ++ [colon]) true p in
    let p := add_run courses false p in
    mret (emit st doc1 p (Some (style p)) LabelValue)
  else
    let p := set_text text p in
    mret (emit st doc1 p (Some (style p)) PlainText).

(** One iteration of the loop of [format_resume]. *)
Definition format_paragraph (st : fstate) (paragraph : Docx.paragraph)
    : outcome fstate :=
  let text := strip U (Docx.text paragraph) in
  if is_nil text then mret st                       (* continue *)
  else
    let doc1 := add_paragraph (document st) in
    let p := empty_paragraph in
    if is_section text then
      let p := set_style (lit "SectionStyle") p in
      let p := if truthy (previous_style st) then set_space_before 6 p else p in
      let p := set_text text p in
      mret (emit st doc1 p (Some (lit "SectionStyle")) SectionHeader)
    else if is_contact text then
      let p := set_style (lit "ContactStyle") p in
      let contacts := map (strip U) (split [bullet] text) in
      let p := set_text (join (space :: bullet :: [space]) contacts) p in
      mret (emit st doc1 p (Some (lit "ContactStyle")) ContactLine)
    else if is_nil (removelast doc1) then          (* not document.paragraphs[:-1] *)
      let p := set_style (lit "NameStyle") p in
      let p := set_text (upper U text) p in
      mret (emit st doc1 p (Some (lit "NameStyle")) Name)
    else format_content st doc1 text.

(** [format_resume(content, document)]. The handler of the source
    prints and re-raises. *)
Definition format_resume (content document : list paragraph) : outcome fstate :=
  try_except
    (for_each format_paragraph
       {| document := document; previous_style := None; roles := [] |} content)
    (fun e => Raise e).

End WithTables.

End Resume.

(** ** The clock *)

Module Clock.
Import Py.

Record datetime := {
  year : N; month : N; day : N; hour : N; minute : N; second : N
}.

Definition month_names : list str :=
  [lit "January"; lit "February"; lit "March"; lit "April"; lit "May";
   lit "June"; lit "July"; lit "August"; lit "September"; lit "October";
   lit "November"; lit "December"].

(** [t.strftime("%Y%m%d%H%M%S")] *)
Definition strftime_compact (t : datetime) : str :=
  dec4 (year t) ++ dec2 (month t) ++ dec2 (day t)
  ++ dec2 (hour t) ++ dec2 (minute t) ++ dec2 (second t).

(** [t.strftime("%B %d, %Y")] *)
Definition strftime_long (t : datetime) : str :=
  default [] (month_names !! N.to_nat (month t - 1))
  ++ space :: dec2 (day t) ++ lit ", " ++ dec4 (year t).

End Clock.

(** ** Cover-letter mode: [format_cover_letter] *)

Module CoverLetter.
Import Py Docx.

(** [d[key]] *)
Definition getitem (d : gmap str str) (key : str) : outcome str :=
  match d !! key with
  | Some v => Ret v
  | None => Raise (KeyError key)
  end.

(** [document.add_paragraph(style=name)] with its text set to [t]. *)
Definition styled (name t : str) : paragraph :=
  set_text t (set_style name empty_paragraph).

Section WithTables.
Context (U : Unicode).

(** The body of the loop over the pieces of the letter. *)
Definition add_content (document : list paragraph) (para : str)
    : outcome (list paragraph) :=
  if negb (Resume.is_nil (strip U para)) then
    let document := add_paragraph document in
    let p := set_style (lit "ContentStyle") empty_paragraph in
    let p := set_text (strip U para) p in
    mret (store_last document p)
  else mret document.

Definition format_cover_letter (now : Clock.datetime)
    (document : list paragraph) (content : str) (user_info : gmap str str)
    : outcome (list paragraph) :=
  (* header with name and contact *)
  let document := add_paragraph document in
  let header := set_style (lit "HeaderStyle") empty_paragraph in
  name ← getitem user_info (lit "name");
  let header := add_run (upper U name) true header in
  let document := store_last document header in
  let document := add_paragraph document in
  let contact := set_style (lit "HeaderStyle") empty_paragraph in
  email ← getitem user_info (lit "email");
  phone ← getitem user_info (lit "phone");
  let contact := set_text (email ++ space :: bullet :: space :: phone) contact in
  contact ← (if bool_decide (is_Some (user_info !! lit "github")) then
               github ← getitem user_info (lit "github");
               mret (set_text (text contact ++ space :: bullet :: space :: github) contact)
             else mret contact);
  contact ← (if bool_decide (is_Some (user_info !! lit "address")) then
               address ← getitem user_info (lit "address");
               mret (set_text (text contact ++ space :: bullet :: space :: address) contact)
             else mret contact);
  let document := store_last document contact in
  (* current date *)
  let document := add_paragraph document in
  let date := set_text (Clock.strftime_long now)
                (set_style (lit "DateStyle") empty_paragraph) in
  let document := store_last document date in
  (* recipient *)
  let document := add_paragraph document in
  let recipient := set_style (lit "RecipientStyle") empty_paragraph in
  company_name ← getitem user_info (lit "company_name");
  let recipient := set_text (company_name ++ newline :: lit "Hiring Manager") recipient in
  let document := store_last document recipient in
  (* salutation *)
  let document := add_paragraph document in
  let salutation := set_text (lit "Dear Hiring Manager,")
                      (set_style (lit "ContentStyle") empty_paragraph) in
  let document := store_last document salutation in
  (* content paragraphs *)
  let paragraphs := split [newline; newline] content in
  document ← for_each add_content document paragraphs;
  (* closing *)
  let document := add_paragraph document in
  let closing := set_style (lit "ContentStyle") empty_paragraph in
  name ← getitem user_info (lit "name");
  let closing := set_text (lit "Sincerely," ++ newline :: name) closing in
  mret (store_last document closing).

(** In the words of the specification: one content block per non-empty
    piece of the body, the body being cut at blank lines. *)
Definition spec_content_blocks (content : str) : list paragraph :=
  map (fun para => styled (lit "ContentStyle") (strip U para))
      (filter (fun para => strip U para <> []) (split [newline; newline] content)).

End WithTables.
End CoverLetter.

(** ** The request handlers *)

Module App.
Import Py Docx.

(** An uploaded file ([werkzeug.FileStorage]). *)
Record upload := Upload { filename : str; payload : list N }.

Record request := Request {
  files : gmap str upload;     (* [request.files] *)
  form : gmap str str          (* [request.form] *)
}.

(** A JSON object of strings with its HTTP status ([jsonify(...), code]). *)
Record response := Response { status : Z; json : gmap str str }.

(** What the handlers consume from outside: the libraries, the file
    system, the text-generation service and the clock. *)
Record world := World {
  UPLOAD_FOLDER : str;
  OUTPUT_FOLDER : str;
  secure_filename : str -> str;
  save_upload : upload -> str -> outcome unit;          (* [file.save(path)] *)
  open_path : str -> outcome (list paragraph);          (* [Document(path)] *)
  open_upload : upload -> outcome (list paragraph);     (* [Document(file)] *)
  save_document : list paragraph -> str -> outcome unit;(* [doc.save(path)] *)
  complete : str -> str -> str -> str -> str -> outcome str;
      (* the chat completion for the cover-letter prompt built from the
         user name, job title, company name, job description and resume *)
  path_exists : str -> bool;
  remove : str -> outcome unit;
  now : Clock.datetime
}.

Definition ALLOWED_EXTENSIONS : gset str := {[ lit "docx" ]}.

(** [os.path.join(a, b)] for a non-empty [a]. *)
Definition path_join (a b : str) : str :=
  if startswith b (lit "/") then b
  else if endswith a (lit "/") then a ++ b
  else a ++ lit "/" ++ b.

(** Truth value of an optional string ([None] and [''] are false). *)
Definition truthy (o : option str) : bool :=
  match o with
  | Some (_ :: _) => true
  | _ => false
  end.

Section WithWorld.
Context (U : Unicode) (W : world).

Definition allowed_file (filename : str) : outcome bool :=
  if contains (lit ".") filename then
    ext ← item (rsplit1 (lit ".") filename) 1;
    mret (bool_decide (lower U ext ∈ ALLOWED_EXTENSIONS))
  else mret false.

Definition read_docx (file_path : str) : outcome str :=
  try_except
    (doc ← open_path W file_path;
     mret (join [newline] (map Docx.text doc)))
    (fun e => (* print(...) *) SystemExit 1).

(** The body of the loop of [write_docx]: a non-blank line is added,
    stripped, as a paragraph; [add_paragraph] raises inside the [try]
    when it refuses the text. *)
Definition write_docx_step (doc : list Docx.paragraph) (paragraph : str)
    : outcome (list Docx.paragraph) :=
  if negb (Resume.is_nil (strip U paragraph))
  then add_text_paragraph doc (strip U paragraph)
  else mret doc.

Definition write_docx (content file_path : str) : outcome bool :=
  try_except
    (doc ← for_each write_docx_step [] (split [newline] content);
     _ ← save_document W doc file_path;
     mret true)
    (fun e => (* app.logger.error(...) *) mret false).

Definition generate_cover_letter
    (user_name job_title company_name job_description user_resume : str)
    : outcome (option str) :=
  try_except
    (c ← complete W user_name job_title company_name job_description user_resume;
     mret (Some c))
    (fun e => mret None).

Definition cleanup_file (_ : unit) (file_path : str) : outcome unit :=
  try_except
    (if path_exists W file_path then remove W file_path else mret tt)
    (fun e => mret tt).

Definition cleanup_files (file_paths : list str) : outcome unit :=
  for_each cleanup_file tt file_paths.

Definition error (code : Z) (msg : str) : response :=
  Response code {[ lit "error" := msg ]}.

(** The value of [form.get(key)] once known to be truthy. *)
Definition form_value (o : option str) : str := default [] o.

Definition generate_cover_letter_endpoint (req : request) : outcome response :=
  try_except
    (if negb (bool_decide (is_Some (files req !! lit "job_description")))
        || negb (bool_decide (is_Some (files req !! lit "resume")))
     then mret (error 400 (lit "Both job description and resume files are required"))
     else
       job_description_file ← match files req !! lit "job_description" with
                              | Some f => mret f
                              | None => Raise (KeyError (lit "job_description"))
                              end;
       ok ← allowed_file (filename job_description_file);
       if negb ok then mret (error 400 (lit "Invalid file format for job description"))
       else
         let job_description_path :=
           path_join (UPLOAD_FOLDER W) (secure_filename W (filename job_description_file)) in
         _ ← save_upload W job_description_file job_description_path;
         job_description ← read_docx job_description_path;
         resume_file ← match files req !! lit "resume" with
                       | Some f => mret f
                       | None => Raise (KeyError (lit "resume"))
                       end;
         ok ← allowed_file (filename resume_file);
         if negb ok then mret (error 400 (lit "Invalid file format for resume"))
         else
           let resume_path :=
             path_join (UPLOAD_FOLDER W) (secure_filename W (filename resume_file)) in
           _ ← save_upload W resume_file resume_path;
           user_resume ← read_docx resume_path;
           let user_name := form req !! lit "user_name" in
           let job_title := form req !! lit "job_title" in
           let company_name := form req !! lit "company_name" in
           if negb (truthy user_name && truthy job_title && truthy company_name)
           then mret (error 400 (lit "Missing required parameters"))
           else
             cover_letter ← generate_cover_letter (form_value user_name)
               (form_value job_title) (form_value company_name)
               job_description user_resume;
             if truthy cover_letter then
               let timestamp := Clock.strftime_compact (now W) in
               let output_filename := lit "cover_letter_" ++ timestamp ++ lit ".docx" in
               let output_path := path_join (OUTPUT_FOLDER W) output_filename in
               _ ← write_docx (form_value cover_letter) output_path;
               _ ← cleanup_files [job_description_path; resume_path];
               mret (Response 200
                       {[ lit "message" := lit "Cover letter generated successfully";
                          lit "file_path" := output_filename ]})
             else mret (error 500 (lit "Failed to generate cover letter")))
    (fun e => mret (error 500 (exn_message e))).

Definition customize_resume (req : request) : outcome response :=
  try_except
    (if negb (bool_decide (is_Some (files req !! lit "resume")))
     then mret (error 400 (lit "No resume file uploaded"))
     else
       resume_file ← match files req !! lit "resume" with
                     | Some f => mret f
                     | None => Raise (KeyError (lit "resume"))
                     end;
       if negb (endswith (filename resume_file) (lit ".docx"))
       then mret (error 400 (lit "Please upload a .docx file"))
       else
         input_doc ← open_upload W resume_file;
         let output_doc := [] in                      (* create_resume_template() *)
         st ← Resume.format_resume U input_doc output_doc;
         let output_path := path_join (OUTPUT_FOLDER W) (lit "formatted_resume.docx") in
         _ ← save_document W (Resume.document st) output_path;
         mret (Response 200 {[ lit "file_path" := lit "formatted_resume.docx" ]}))
    (fun e => mret (error 500 (exn_message e))).

End WithWorld.
End App.

(** ** Sample requests and worlds *)

Module Demo.
Import Py Docx App.

(** A world with a working upload directory, in which the documents at
    the paths [unreadable] cannot be parsed, output documents can be saved
    only if [disk_ok], and the text-generation service answers with a
    two-line letter. *)
Definition demo_world (t : Clock.datetime) (unreadable : list str)
    (disk_ok : bool) : world := {|
  UPLOAD_FOLDER := lit "uploads";
  OUTPUT_FOLDER := lit "outputs";
  secure_filename := fun name => name;
  save_upload := fun _ _ => Ret tt;
  open_path := fun path =>
    if existsb (Py.eqb path) unreadable
    then Raise (LibraryError (lit "Package not found"))
    else Ret [plain (lit "Some text")];
  open_upload := fun f =>
    if Py.eqb (payload f) []
    then Raise (LibraryError (lit "File is not a zip file"))
    else Ret [plain (lit "Jane Doe"); plain (lit "EDUCATION")];
  save_document := fun _ _ =>
    if disk_ok then Ret tt else Raise (LibraryError (lit "Permission denied"));
  complete := fun _ _ _ _ _ => Ret (lit "Dear Hiring Manager," ++ newline :: lit "Hire me.");
  path_exists := fun _ => true;
  remove := fun _ => Ret tt;
  now := t
|}.

Definition noon : Clock.datetime :=
  {| Clock.year := 2025; Clock.month := 3; Clock.day := 9;
     Clock.hour := 12; Clock.minute := 0; Clock.second := 5 |}.

Definition later : Clock.datetime :=
  {| Clock.year := 2025; Clock.month := 3; Clock.day := 9;
     Clock.hour := 12; Clock.minute := 0; Clock.second := 6 |}.

(** A complete request for a cover letter. *)
Definition cover_letter_request : request := {|
  files := {[ lit "job_description" := Upload (lit "jd.docx") [80; 75];
              lit "resume" := Upload (lit "cv.docx") [80; 75] ]};
  form := {[ lit "user_name" := lit "Jane Doe";
             lit "job_title" := lit "Engineer";
             lit "company_name" := lit "Acme" ]}
|}.

(** A request to reformat a resume; the upload is a readable document,
    or, with an empty payload, not a document at all. *)
Definition resume_request (payload : list N) : request := {|
  files := {[ lit "resume" := Upload (lit "cv.docx") payload ]};
  form := ∅
|}.

End Demo.

(** ** The classifier as a function of the line

    [format_paragraph] decides on three things only: the stripped text of
    the line, whether the output document is still empty, and
    [previous_style]. The definitions below spell that function out; they
    are proved equal to the embedding of the source in
    [ResumeFacts.format_paragraph_eq]. *)

Module Classifier.
Import Py Docx Resume.

(** The style name each branch leaves in [previous_style]. *)
Definition style_name (r : Role) : str :=
  match r with
  | Name => lit "NameStyle"
  | ContactLine => lit "ContactStyle"
  | SectionHeader => lit "SectionStyle"
  | InstitutionRow => lit "EducationStyle"
  | BulletEntry | LabelValue | PlainText => lit "ContentStyle"
  end.

Section WithTables.
Context (U : Unicode).

Definition role_of (first : bool) (prev : option str) (text : str) : Role :=
  if is_section U text then SectionHeader
  else if is_contact text then ContactLine
  else if first then Name
  else if style_is prev (lit "SectionStyle") && contains (lit "University") text
  then InstitutionRow
  else if startswith text [bullet] then BulletEntry
  else if style_is prev (lit "SectionStyle")
          && (contains (lit "Courses") text || contains (lit "Skills") text)
  then LabelValue
  else PlainText.

(** The runs written for a line handled as role [r]. *)
Definition runs_of (r : Role) (text : str) : list run :=
  match r with
  | SectionHeader | PlainText => [Run text false]
  | ContactLine =>
      [Run (join (space :: bullet :: [space]) (map (strip U) (split [bullet] text))) false]
  | Name => [Run (upper U text) false]
  | InstitutionRow =>
      match split [tab] text with
      | p0 :: p1 :: more =>
          [Run p0 true; Run (tab :: p1) false]
          ++ match more with
             | p2 :: _ => [Run (tab :: p2) false]
             | [] => []
             end
      | _ => []
      end
  | BulletEntry =>
      let rest := strip U (tail text) in
      match find_sep (lit " - ") rest with
      | Some (title, description) =>
          [Run (bullet :: lit " ") true; Run (strip U title) true;
           Run (lit " - " ++ strip U description) false]
      | None => [Run (bullet :: lit " ") true; Run rest false]
      end
  | LabelValue =>
      match find_sep [colon] text with
      | Some (label, courses) => [Run (label ++ [colon]) true; Run courses false]
      | None => [Run (text ++ [colon]) true; Run [] false]
      end
  end.

Definition block_of (prev : option str) (r : Role) (text : str) : paragraph :=
  {| style := style_name r;
     runs := runs_of r text;
     space_before :=
       match r with
       | SectionHeader => if truthy prev then Some 6 else None
       | _ => None
       end |}.

(** The state after one line. *)
Definition step (st : fstate) (line : paragraph) : fstate :=
  let text := strip U (Docx.text line) in
  if is_nil text then st
  else
    let r := role_of (is_nil (document st)) (previous_style st) text in
    {| document := document st ++ [block_of (previous_style st) r text];
       previous_style := Some (style_name r);
       roles := roles st ++ [r] |}.

Definition run_from (st : fstate) (content : list paragraph) : fstate :=
  foldl step st content.

Definition initial (document : list paragraph) : fstate :=
  {| document := document; previous_style := None; roles := [] |}.

(** The roles a fresh run assigns to the lines of [content]. *)
Definition classify (content : list paragraph) : list Role :=
  roles (run_from (initial []) content).

(** The rendered document of a fresh run. *)
Definition render (content : list paragraph) : list paragraph :=
  document (run_from (initial []) content).

(** Whether a rendered block, read back as a line, can be given its
    role again: the upper-cased name must not itself pass for a section
    header or a contact line, and an institution row must still show
    its keyword. *)
Definition keeps_role (r : Role) (block : paragraph) : bool :=
  let text := strip U (Docx.text block) in
  match r with
  | Name => negb (is_nil text) && negb (is_section U text) && negb (is_contact text)
  | InstitutionRow => contains (lit "University") text
  | _ => true
  end.

Fixpoint all_keep (rs : list Role) (blocks : list paragraph) : bool :=
  match rs, blocks with
  | r :: rs', b :: blocks' => keeps_role r b && all_keep rs' blocks'
  | _, _ => true
  end.

End WithTables.
End Classifier.

(** ** Plain-text output: what [write_docx] and [write_pdf] hand over *)

Module Plain.
Import Py Docx App.

(** A flowable of the PDF story. *)
Inductive flowable :=
| PdfParagraph (markup : str)        (* [Paragraph(text, normal_style)] *)
| Spacer (width height : N).         (* [Spacer(1, 12)] *)

(** In the words of the source's comments: the non-empty paragraphs of
    the content, one per line, stripped. *)
Definition written_lines (U : Unicode) (content : str) : list str :=
  map (strip U) (filter (fun line => strip U line <> []) (split [newline] content)).

Section WithPdf.
Context (U : Unicode).
(** [Paragraph(text, style)], which parses its text as markup and may
    raise, and [SimpleDocTemplate(file_path, ...).build(story)]. *)
Context (make_paragraph : str -> outcome flowable).
Context (build : str -> list flowable -> outcome unit).

Definition write_pdf_step (story : list flowable) (paragraph : str)
    : outcome (list flowable) :=
  if negb (Resume.is_nil (strip U paragraph)) then
    p ← make_paragraph (strip U paragraph);
    let story := story ++ [p] in
    mret (story ++ [Spacer 1 12])
  else mret story.

Definition write_pdf (content file_path : str) : outcome bool :=
  try_except
    (story ← for_each write_pdf_step [] (split [newline] content);
     _ ← build file_path story;
     mret true)
    (fun e => (* app.logger.error(...) *) mret false).

End WithPdf.
End Plain.

(** ** Clock readings that print on fixed width *)

Module ClockRange.
Import Clock.

(** The readings whose fields fill their columns in
    ["%Y%m%d%H%M%S"]: every reading of a real clock before the year
    10000. *)
Definition fixed_width (t : datetime) : Prop :=
  year t < 10000 /\ month t < 100 /\ day t < 100 /\
  hour t < 100 /\ minute t < 100 /\ second t < 100.

(** No library call ends the process on its own. *)
Definition no_exit (W : App.world) : Prop :=
  (forall f path code, App.save_upload W f path <> SystemExit code) /\
  (forall path code, App.open_path W path <> SystemExit code) /\
  (forall f code, App.open_upload W f <> SystemExit code) /\
  (forall doc path code, App.save_document W doc path <> SystemExit code) /\
  (forall a b c d e code, App.complete W a b c d e <> SystemExit code) /\
  (forall path code, App.remove W path <> SystemExit code).

End ClockRange.

(** * Properties *)

(** ** Facts about the string operations *)

Module PyFacts.
Import Py.

Lemma startswith_true (s p : str) :
  startswith s p = true <-> exists r, s = p ++ r.
Proof.
  revert s. induction p as [|x p IH]; intros s; simpl.
  - split; [intros _; by exists s | done].
  - destruct s as [|y s]; simpl.
    + split; [done | intros [r Hr]; discriminate].
    + rewrite andb_true_iff, N.eqb_eq, IH. split.
      * intros [-> [r ->]]. eauto.
      * intros [r Hr]. injection Hr as -> ->. eauto.
Qed.

Lemma startswith_drop (s p : str) :
  startswith s p = true -> s = p ++ drop (length p) s.
Proof.
  intros [r ->]%startswith_true. by rewrite drop_app_length.
Qed.

Lemma contains_true (needle hay : str) :
  contains needle hay = true <-> exists a b, hay = a ++ needle ++ b.
Proof.
  induction hay as [|c hay IH].
  - simpl. rewrite orb_false_r, startswith_true. split.
    + intros [r Hr]. exists [], r. done.
    + intros (a & b & H). symmetry in H.
      apply app_eq_nil in H as [-> H]. exists b. done.
  - cbn [contains]. rewrite orb_true_iff, startswith_true, IH. split.
    + intros [[r Hr] | (a & b & ->)].
      * exists [], r. done.
      * exists (c :: a), b. done.
    + intros (a & b & H). destruct a as [|x a].
      * left. exists b. done.
      * right. injection H as -> ->. eauto.
Qed.

Lemma contains_app_l (needle a b : str) :
  contains needle a = true -> contains needle (a ++ b) = true.
Proof.
  rewrite !contains_true. intros (x & y & ->). exists x, (y ++ b).
  by rewrite <- !app_assoc.
Qed.

Lemma contains_app_r (needle a b : str) :
  contains needle b = true -> contains needle (a ++ b) = true.
Proof.
  rewrite !contains_true. intros (x & y & ->). exists (a ++ x), y.
  by rewrite <- !app_assoc.
Qed.

Lemma contains_char (c : N) (s : str) :
  contains [c] s = true <-> c ∈ s.
Proof.
  rewrite contains_true. split.
  - intros (a & b & ->). set_solver.
  - intros (a & b & ->)%list_elem_of_split. eauto.
Qed.

Lemma find_sep_Some (sep s a b : str) :
  find_sep sep s = Some (a, b) -> s = a ++ sep ++ b.
Proof.
  revert a b. induction s as [|c s IH]; intros a b.
  - cbn [find_sep]. destruct (startswith [] sep) eqn:E; [|done].
    intros [= <- <-]. apply startswith_drop in E. done.
  - cbn [find_sep]. destruct (startswith (c :: s) sep) eqn:E.
    + intros [= <- <-]. by apply startswith_drop in E.
    + destruct (find_sep sep s) as [[a' b']|]; [|done].
      intros [= <- <-]. by rewrite (IH a' b').
Qed.

Lemma find_sep_contains (sep s : str) :
  contains sep s = true <-> is_Some (find_sep sep s).
Proof.
  induction s as [|c s IH].
  - cbn [contains find_sep]. rewrite orb_false_r.
    destruct (startswith [] sep); split; try done; try by intros [? ?].
  - cbn [contains find_sep]. destruct (startswith (c :: s) sep); simpl.
    + split; eauto.
    + rewrite IH. destruct (find_sep sep s) as [[a b]|]; split; eauto;
        try by intros [? ?].
Qed.

Lemma find_sep_None (sep s : str) :
  contains sep s = false <-> find_sep sep s = None.
Proof.
  pose proof (find_sep_contains sep s) as H.
  destruct (contains sep s), (find_sep sep s) as [[a b]|]; split; try done.
  - intros _. destruct H as [H _]. destruct H; done.
  - intros _. destruct H as [_ H]. discriminate H. eauto.
Qed.

Lemma split1_two (sep s : str) :
  contains sep s = true ->
  exists a b, find_sep sep s = Some (a, b) /\ split1 sep s = [a; b].
Proof.
  intros [[a b] H]%find_sep_contains. exists a, b. unfold split1. by rewrite H.
Qed.

Lemma find_sep_char_first (c : N) (s a b : str) :
  find_sep [c] s = Some (a, b) -> c ∉ a.
Proof.
  revert a b. induction s as [|x s IH]; intros a b; cbn [find_sep].
  - done.
  - destruct (startswith (x :: s) [c]) eqn:E.
    + intros [= <- <-]. set_solver.
    + destruct (find_sep [c] s) as [[a' b']|] eqn:F; [|done].
      intros [= <- <-]. cbn in E. rewrite andb_true_r in E.
      apply N.eqb_neq in E. specialize (IH a' b' eq_refl).
      intros [->|Hin]%elem_of_cons; [by apply E | by apply IH].
Qed.

Lemma elem_of_rev (c : N) (s : str) : c ∈ rev s <-> c ∈ s.
Proof. rewrite !list_elem_of_In. symmetry. apply in_rev. Qed.

Lemma elem_of_dropwhile (f : N -> bool) (c : N) (s : str) :
  c ∈ s -> f c = false -> c ∈ dropwhile f s.
Proof.
  intros Hin Hf. induction s as [|x s IH]; [done|].
  cbn. destruct (f x) eqn:E; [|done].
  apply IH. apply elem_of_cons in Hin as [->|]; [congruence | done].
Qed.

Lemma dropwhile_suffix (f : N -> bool) (s : str) :
  exists a, s = a ++ dropwhile f s /\ forallb f a = true.
Proof.
  induction s as [|x s (a & IH & Ha)].
  - by exists [].
  - cbn. destruct (f x) eqn:E.
    + exists (x :: a). cbn. rewrite E, Ha. split; [by f_equal | done].
    + by exists [].
Qed.

Lemma dropwhile_idem (f : N -> bool) (s : str) :
  dropwhile f (dropwhile f s) = dropwhile f s.
Proof.
  induction s as [|x s IH]; [done|]. cbn. destruct (f x) eqn:E; [done|].
  cbn. by rewrite E.
Qed.

Lemma dropwhile_head (f : N -> bool) (s : str) (c : N) (r : str) :
  dropwhile f s = c :: r -> f c = false.
Proof.
  induction s as [|x s IH]; [done|]. cbn. destruct (f x) eqn:E; [done|].
  by intros [= <- _].
Qed.

Lemma dropwhile_snoc (f : N -> bool) (l : str) (c : N) :
  f c = false -> dropwhile f (l ++ [c]) = dropwhile f l ++ [c].
Proof.
  intros Hc. induction l as [|x l IH]; cbn; [by rewrite Hc|].
  destruct (f x); done.
Qed.

Lemma contains_nil_inv (w : str) : contains w [] = true -> w = [].
Proof. by destruct w. Qed.

(** A word found in a text that is cut by a character foreign to the
    word lies on one side of the cut. *)
Lemma contains_cut (w x y : str) (c : N) :
  c ∉ w -> contains w (x ++ c :: y) = true ->
  contains w x = true \/ contains w y = true.
Proof.
  intros Hc. rewrite !contains_true. intros (a & b & H).
  apply app_eq_inv in H as [(k & Hx & Hk) | (k & Ha & Hk)].
  - symmetry in Hk. apply app_eq_inv in Hk as [(k' & Hk1 & Hk2) | (k' & Hw & Hb)].
    + left. exists a, k'. by rewrite Hx, Hk1.
    + destruct k' as [|d k'].
      * left. exists a, []. rewrite app_nil_r in Hw. by rewrite Hx, Hw, app_nil_r.
      * injection Hb as <- _. exfalso. apply Hc. rewrite Hw. set_solver.
  - destruct k as [|d k].
    + destruct w as [|d w].
      * left. exists x, []. by rewrite app_nil_r.
      * injection Hk as <- _. exfalso. apply Hc. set_solver.
    + injection Hk as _ ->. right. eauto.
Qed.

Lemma contains_within (w a x y : str) :
  contains w a = true -> contains w (x ++ a ++ y) = true.
Proof. intros H. by apply contains_app_r, contains_app_l. Qed.

(** *** Splitting at one character *)

Lemma split_go_char_cons (c : N) (cur : str) (x : N) (s : str) :
  split_go [c] 0 cur (x :: s) =
  if N.eqb c x then rev cur :: split_go [c] 0 [] s
  else split_go [c] 0 (x :: cur) s.
Proof. cbn. by rewrite andb_true_r. Qed.

Lemma split_go_char_none (c : N) (cur s : str) :
  c ∉ s -> split_go [c] 0 cur s = [rev cur ++ s].
Proof.
  revert cur. induction s as [|x s IH]; intros cur Hc.
  - cbn. by rewrite app_nil_r.
  - rewrite split_go_char_cons. destruct (N.eqb_spec c x) as [->|Hx].
    + exfalso. apply Hc. set_solver.
    + rewrite IH by set_solver. cbn. by rewrite <- app_assoc.
Qed.

Lemma split_go_nonempty (sep : str) (skip : nat) (cur s : str) :
  exists p rest, split_go sep skip cur s = p :: rest.
Proof.
  revert skip cur. induction s as [|x s IH]; intros skip cur; cbn; [eauto|].
  destruct skip; [|apply IH].
  destruct (startswith (x :: s) sep); [|apply IH].
  destruct (IH (Nat.pred (length sep)) []) as (p & rest & ->). eauto.
Qed.

Lemma split_go_char_two (c : N) (cur s : str) :
  c ∈ s -> exists p q rest, split_go [c] 0 cur s = p :: q :: rest.
Proof.
  revert cur. induction s as [|x s IH]; intros cur Hc.
  - by apply elem_of_nil in Hc.
  - rewrite split_go_char_cons. destruct (N.eqb_spec c x) as [->|Hx].
    + destruct (split_go_nonempty [x] 0 [] s) as (q & rest & ->). eauto.
    + apply IH. set_solver.
Qed.

Lemma split_go_char_sub (c : N) (cur s piece : str) (x : N) :
  piece ∈ split_go [c] 0 cur s -> x ∈ piece -> x ∈ cur \/ x ∈ s.
Proof.
  revert cur. induction s as [|y s IH]; intros cur.
  - cbn. intros ->%list_elem_of_singleton Hx. left. by apply elem_of_rev.
  - rewrite split_go_char_cons. destruct (N.eqb c y).
    + intros [->|Hp]%elem_of_cons Hx.
      * left. by apply elem_of_rev.
      * destruct (IH [] Hp Hx) as [H|H]; [by apply elem_of_nil in H | set_solver].
    + intros Hp Hx. destruct (IH _ Hp Hx) as [H|H]; set_solver.
Qed.

Lemma split_go_char_elem (c : N) (cur s : str) (x : N) :
  x <> c -> x ∈ cur \/ x ∈ s ->
  exists piece, piece ∈ split_go [c] 0 cur s /\ x ∈ piece.
Proof.
  intros Hx. revert cur. induction s as [|y s IH]; intros cur H.
  - exists (rev cur). split; [cbn; set_solver|].
    destruct H as [H|H]; [by apply elem_of_rev | by apply elem_of_nil in H].
  - rewrite split_go_char_cons. destruct (N.eqb_spec c y) as [->|Hy].
    + destruct H as [H|H].
      * exists (rev cur). split; [set_solver | by apply elem_of_rev].
      * apply elem_of_cons in H as [->|H]; [done|].
        destruct (IH [] (or_intror H)) as (piece & Hp & Hin).
        exists piece. split; [set_solver | done].
    + apply IH. set_solver.
Qed.

Lemma split_char_two (c : N) (s : str) :
  c ∈ s -> exists p q rest, split [c] s = p :: q :: rest.
Proof. apply split_go_char_two. Qed.

Lemma split_char_none (c : N) (s : str) : c ∉ s -> split [c] s = [s].
Proof. intros H. unfold split. by rewrite split_go_char_none. Qed.

Lemma split_char_sub (c : N) (s piece : str) (x : N) :
  piece ∈ split [c] s -> x ∈ piece -> x ∈ s.
Proof.
  intros Hp Hx. destruct (split_go_char_sub _ _ _ _ _ Hp Hx) as [H|H]; [|done].
  by apply elem_of_nil in H.
Qed.

Lemma split_char_elem (c : N) (s : str) (x : N) :
  x <> c -> x ∈ s -> exists piece, piece ∈ split [c] s /\ x ∈ piece.
Proof. intros Hx H. apply split_go_char_elem; auto. Qed.

(** The piece under construction is a prefix of the first piece. *)
Lemma split_go_char_cur (c : N) (s : str) :
  exists hd tl,
    split_go [c] 0 [] s = hd :: tl /\
    forall cur, split_go [c] 0 cur s = (rev cur ++ hd) :: tl.
Proof.
  induction s as [|x s (hd & tl & E & IH)].
  - exists [], []. split; [done|]. intros cur. cbn. by rewrite app_nil_r.
  - destruct (N.eqb_spec c x) as [->|Hx].
    + exists [], (split_go [x] 0 [] s). split.
      * rewrite split_go_char_cons. by rewrite N.eqb_refl.
      * intros cur. rewrite split_go_char_cons, N.eqb_refl. by rewrite app_nil_r.
    + exists (x :: hd), tl. apply N.eqb_neq in Hx. split.
      * rewrite split_go_char_cons, Hx. apply IH.
      * intros cur. rewrite split_go_char_cons, Hx, IH. cbn.
        by rewrite <- app_assoc.
Qed.

Lemma split_char_cons_sep (c : N) (s : str) :
  split [c] (c :: s) = [] :: split [c] s.
Proof. unfold split. by rewrite split_go_char_cons, N.eqb_refl. Qed.

Lemma split_char_cons_other (c x : N) (s : str) :
  x <> c ->
  exists hd tl, split [c] s = hd :: tl /\ split [c] (x :: s) = (x :: hd) :: tl.
Proof.
  intros Hx. destruct (split_go_char_cur c s) as (hd & tl & E & H).
  exists hd, tl. split; [done|]. unfold split.
  rewrite split_go_char_cons. destruct (N.eqb_spec c x) as [->|_]; [done|].
  apply H.
Qed.

(** A character other than the separator, added at the end, goes to the
    last piece. *)
Lemma split_char_snoc (c x : N) (s : str) :
  x <> c ->
  exists init last,
    split [c] s = init ++ [last] /\ split [c] (s ++ [x]) = init ++ [last ++ [x]].
Proof.
  intros Hx. induction s as [|y s (init & last & E1 & E2)].
  - exists [], []. split; [done|]. cbn. destruct (N.eqb_spec c x); by subst.
  - destruct (decide (y = c)) as [->|Hy].
    + exists ([] :: init), last. cbn [app]. rewrite !split_char_cons_sep.
      by rewrite E1, E2.
    + destruct (split_char_cons_other c y s Hy) as (hd & tl & F1 & F2).
      destruct (split_char_cons_other c y (s ++ [x]) Hy) as (hd' & tl' & G1 & G2).
      cbn [app]. rewrite F2, G2. rewrite E1 in F1. rewrite E2 in G1.
      destruct init as [|i init].
      * injection F1 as <- <-. injection G1 as <- <-.
        exists [], (y :: last). done.
      * injection F1 as <- <-. injection G1 as <- <-.
        exists ((y :: i) :: init), last. done.
Qed.

(** *** Joining *)

Lemma join_cons2 (sep p q : str) (rest : list str) :
  join sep (p :: q :: rest) = p ++ sep ++ join sep (q :: rest).
Proof. reflexivity. Qed.

Lemma elem_of_join (sep : str) (pieces : list str) (piece : str) (x : N) :
  piece ∈ pieces -> x ∈ piece -> x ∈ join sep pieces.
Proof.
  intros Hp Hx. induction pieces as [|p pieces IH]; [by apply elem_of_nil in Hp|].
  destruct pieces as [|q pieces].
  - apply list_elem_of_singleton in Hp as ->. done.
  - rewrite join_cons2. apply elem_of_cons in Hp as [->|Hp]; [set_solver|].
    specialize (IH Hp). set_solver.
Qed.

Section WithTables.
Context (U : Unicode).

Lemma strip_cons (c : N) (s : str) :
  isspace U c = false -> strip U (c :: s) = c :: rstrip U s.
Proof.
  intros Hc. unfold strip, lstrip, rstrip. cbn [dropwhile]. rewrite Hc.
  cbn [rev]. rewrite dropwhile_snoc by done. by rewrite rev_app_distr.
Qed.

Lemma strip_head (s : str) (c : N) (r : str) :
  strip U s = c :: r -> isspace U c = false.
Proof.
  unfold strip. destruct (lstrip U s) as [|d y] eqn:E; [done|].
  pose proof (dropwhile_head _ _ _ _ E) as Hd.
  unfold rstrip. cbn [rev]. rewrite dropwhile_snoc by done.
  rewrite rev_app_distr. cbn. by intros [= <- _].
Qed.

Lemma elem_of_rstrip_inv (x : N) (s : str) : x ∈ rstrip U s -> x ∈ s.
Proof.
  unfold rstrip. intros H. apply (proj1 (elem_of_rev _ _)) in H.
  destruct (dropwhile_suffix (isspace U) (rev s)) as (a & E & _).
  apply elem_of_rev. rewrite E. apply elem_of_app. right. exact H.
Qed.

Lemma rstrip_idem (s : str) : rstrip U (rstrip U s) = rstrip U s.
Proof. unfold rstrip. by rewrite rev_involutive, dropwhile_idem. Qed.

(** [strip] is idempotent. *)
Lemma strip_idem (s : str) : strip U (strip U s) = strip U s.
Proof.
  destruct (strip U s) as [|c r] eqn:E; [done|].
  pose proof (strip_head _ _ _ E) as Hc.
  rewrite strip_cons by done. f_equal.
  revert E. unfold strip. destruct (lstrip U s) as [|d y] eqn:F; [done|].
  pose proof (dropwhile_head _ _ _ _ F) as Hd.
  unfold rstrip at 1. cbn [rev]. rewrite dropwhile_snoc by done.
  rewrite rev_app_distr. cbn [rev app]. intros [= _ <-].
  apply rstrip_idem.
Qed.

(** A text that neither starts nor ends with white space is its own
    [strip]. *)
Lemma strip_trimmed (c d : N) (s : str) :
  isspace U c = false -> isspace U d = false ->
  strip U (c :: s ++ [d]) = c :: s ++ [d].
Proof.
  intros Hc Hd. rewrite strip_cons by done. f_equal.
  unfold rstrip. rewrite rev_app_distr. cbn [rev app dropwhile].
  rewrite Hd. change (d :: rev s) with (rev [d] ++ rev s).
  by rewrite <- rev_app_distr, rev_involutive.
Qed.

Lemma strip_space_cons (x : N) (s : str) :
  isspace U x = true -> strip U (x :: s) = strip U s.
Proof. intros Hx. unfold strip, lstrip. cbn [dropwhile]. by rewrite Hx. Qed.

Lemma dropwhile_space_snoc (x : N) (s : str) :
  isspace U x = true ->
  dropwhile (isspace U) (s ++ [x]) =
  match dropwhile (isspace U) s with
  | [] => []
  | r => r ++ [x]
  end.
Proof.
  intros Hx. induction s as [|y s IH]; cbn; [by rewrite Hx|].
  destruct (isspace U y); done.
Qed.

Lemma strip_space_snoc (x : N) (s : str) :
  isspace U x = true -> strip U (s ++ [x]) = strip U s.
Proof.
  intros Hx. unfold strip, lstrip. rewrite dropwhile_space_snoc by done.
  destruct (dropwhile (isspace U) s) as [|d r]; [done|].
  unfold rstrip. rewrite rev_app_distr. cbn [rev app dropwhile]. by rewrite Hx.
Qed.

(** Trimming the line before cutting it at [c] does not change the
    trimmed pieces. *)
Lemma split_lstrip (c : N) (s : str) :
  isspace U c = false ->
  map (strip U) (split [c] (lstrip U s)) = map (strip U) (split [c] s).
Proof.
  intros Hc. induction s as [|x s IH]; [done|].
  unfold lstrip in *. cbn [dropwhile]. destruct (isspace U x) eqn:Hx; [|done].
  rewrite IH.
  destruct (split_char_cons_other c x s) as (hd & tl & E1 & E2); [congruence|].
  rewrite E1, E2. cbn [map]. by rewrite strip_space_cons.
Qed.

Lemma split_rstrip (c : N) (s : str) :
  isspace U c = false ->
  map (strip U) (split [c] (rstrip U s)) = map (strip U) (split [c] s).
Proof.
  intros Hc. unfold rstrip. rewrite <- (rev_involutive s) at 2.
  induction (rev s) as [|x t IH]; [done|].
  cbn [dropwhile]. destruct (isspace U x) eqn:Hx; [|done].
  rewrite IH. cbn [rev].
  destruct (split_char_snoc c x (rev t)) as (init & last & E1 & E2); [congruence|].
  rewrite E1, E2, !map_app. cbn [map]. by rewrite strip_space_snoc.
Qed.

Lemma split_strip (c : N) (s : str) :
  isspace U c = false ->
  map (strip U) (split [c] (strip U s)) = map (strip U) (split [c] s).
Proof.
  intros Hc. unfold strip. by rewrite split_rstrip, split_lstrip.
Qed.

Lemma elem_of_strip (c : N) (s : str) :
  c ∈ s -> isspace U c = false -> c ∈ strip U s.
Proof.
  intros Hin Hc. unfold strip, rstrip, lstrip.
  apply elem_of_rev, elem_of_dropwhile; [|done].
  apply elem_of_rev. by apply elem_of_dropwhile.
Qed.

(** Stripping keeps a middle part of the text. *)
Lemma strip_middle (s : str) :
  exists a b, s = a ++ strip U s ++ b.
Proof.
  unfold strip, rstrip, lstrip.
  destruct (dropwhile_suffix (isspace U) s) as (a & Ha & _).
  destruct (dropwhile_suffix (isspace U) (rev (dropwhile (isspace U) s))) as (b & Hb & _).
  exists a, (rev b). rewrite <- rev_app_distr, <- Hb, rev_involutive. done.
Qed.

Lemma elem_of_strip_inv (c : N) (s : str) : c ∈ strip U s -> c ∈ s.
Proof.
  destruct (strip_middle s) as (a & b & H). intros Hin. rewrite H. set_solver.
Qed.

Lemma isupper_lower_char (c : N) (s : str) :
  c ∈ s -> islower U c = true -> isupper U s = false.
Proof.
  intros Hin Hc. unfold isupper. apply andb_false_iff. left.
  apply not_true_is_false. intros H. rewrite forallb_forall in H.
  apply list_elem_of_In in Hin. specialize (H c Hin). rewrite Hc in H. done.
Qed.

End WithTables.

Lemma ascii_tables_agree : agrees_on_ascii ascii_tables.
Proof. by split. Qed.

End PyFacts.

(** ** The loop of [format_resume] computes [Classifier.step] *)

Module ResumeFacts.
Import Py PyFacts Docx Resume Classifier.

#[local] Arguments store_last : simpl never.
#[local] Arguments add_paragraph : simpl never.

Lemma store_last_add (document : list paragraph) (p : paragraph) :
  store_last (add_paragraph document) p = document ++ [p].
Proof.
  unfold store_last, add_paragraph. rewrite length_app. simpl.
  replace (Nat.pred (length document + 1)) with (length document + 0)%nat by lia.
  by rewrite insert_app_r.
Qed.

Lemma removelast_add (document : list paragraph) :
  removelast (add_paragraph document) = document.
Proof. apply removelast_last. Qed.

Lemma Ret_inj {A} (a b : A) : Ret a = Ret b -> a = b.
Proof. by intros [= ->]. Qed.

Section WithTables.
Context (U : Unicode).

Lemma role_of_section first prev text :
  is_section U text = true -> role_of U first prev text = SectionHeader.
Proof. unfold role_of. by intros ->. Qed.

Lemma role_of_contact first prev text :
  is_section U text = false -> is_contact text = true ->
  role_of U first prev text = ContactLine.
Proof. unfold role_of. by intros -> ->. Qed.

Lemma role_of_first prev text :
  is_section U text = false -> is_contact text = false ->
  role_of U true prev text = Name.
Proof. unfold role_of. by intros -> ->. Qed.

Lemma format_content_eq st text :
  is_section U text = false -> is_contact text = false ->
  format_content U st (add_paragraph (document st)) text =
  Ret (let r := role_of U false (previous_style st) text in
       {| document := document st ++ [block_of U (previous_style st) r text];
          previous_style := Some (style_name r);
          roles := roles st ++ [r] |}).
Proof.
  intros Hs Hc. unfold format_content, role_of. rewrite Hs, Hc.
  destruct (style_is (previous_style st) (lit "SectionStyle")
            && contains (lit "University") text) eqn:Hedu.
  { unfold block_of, emit. cbn [runs_of].
    destruct (split [tab] text) as [|p0 [|p1 [|p2 more]]];
      cbn; rewrite store_last_add; reflexivity. }
  destruct (startswith text [bullet]) eqn:Hb.
  { unfold block_of, emit. cbn [runs_of].
    destruct (contains (lit " - ") (strip U (tail text))) eqn:Hd.
    - apply split1_two in Hd as (a & b & Hf & Hsp). rewrite Hsp, Hf.
      cbn. rewrite store_last_add. reflexivity.
    - apply find_sep_None in Hd. rewrite Hd.
      cbn. rewrite store_last_add. reflexivity. }
  destruct (style_is (previous_style st) (lit "SectionStyle")
            && (contains (lit "Courses") text || contains (lit "Skills") text)) eqn:Hl.
  { unfold block_of, emit. cbn [runs_of].
    destruct (contains [colon] text) eqn:Hd.
    - apply split1_two in Hd as (a & b & Hf & Hsp). rewrite Hsp, Hf.
      cbn. rewrite store_last_add. reflexivity.
    - apply find_sep_None in Hd. rewrite Hd.
      cbn. rewrite store_last_add. reflexivity. }
  unfold block_of, emit. cbn. rewrite store_last_add. reflexivity.
Qed.

(** The embedding of the source never raises and is the function
    [step]. *)
Lemma format_paragraph_eq st line :
  format_paragraph U st line = Ret (step U st line).
Proof.
  unfold format_paragraph, step.
  destruct (is_nil (strip U (text line))) eqn:Hnil; [reflexivity|].
  destruct (is_section U (strip U (text line))) eqn:Hs.
  { rewrite role_of_section by done. unfold emit, block_of.
    rewrite store_last_add. cbn.
    destruct (truthy (previous_style st)); reflexivity. }
  destruct (is_contact (strip U (text line))) eqn:Hc.
  { rewrite role_of_contact by done. unfold emit, block_of.
    rewrite store_last_add. reflexivity. }
  rewrite removelast_add.
  destruct (is_nil (document st)) eqn:Hd.
  { rewrite role_of_first by done. unfold emit, block_of.
    rewrite store_last_add. reflexivity. }
  by apply format_content_eq.
Qed.

Lemma for_each_eq st content :
  for_each (format_paragraph U) st content = Ret (run_from U st content).
Proof.
  revert st. induction content as [|line content IH]; intros st; [reflexivity|].
  cbn [for_each]. rewrite format_paragraph_eq. cbn. apply IH.
Qed.

(** [format_resume] always returns, with the state [run_from] computes. *)
Lemma format_resume_eq content document :
  format_resume U content document = Ret (run_from U (initial document) content).
Proof. unfold format_resume. rewrite for_each_eq. reflexivity. Qed.

Lemma run_from_app st xs ys :
  run_from U st (xs ++ ys) = run_from U (run_from U st xs) ys.
Proof. apply foldl_app. Qed.

Lemma run_from_cons st x xs :
  run_from U st (x :: xs) = run_from U (step U st x) xs.
Proof. reflexivity. Qed.

Lemma step_blank st line :
  strip U (text line) = [] -> step U st line = st.
Proof. unfold step. by intros ->. Qed.

Lemma run_from_blank st blanks :
  Forall (fun line => strip U (text line) = []) blanks ->
  run_from U st blanks = st.
Proof.
  intros H. revert st. induction H as [|line blanks Hl _ IH]; intros st; [done|].
  cbn. rewrite step_blank by done. apply IH.
Qed.

Lemma step_line st line :
  strip U (text line) <> [] ->
  step U st line =
  let text := strip U (Docx.text line) in
  let r := role_of U (is_nil (document st)) (previous_style st) text in
  {| document := document st ++ [block_of U (previous_style st) r text];
     previous_style := Some (style_name r);
     roles := roles st ++ [r] |}.
Proof.
  intros H. unfold step. destruct (strip U (text line)); done.
Qed.

(** Lines only ever add to the record of roles and to the document. *)
Lemma run_from_extends st content :
  exists rs blocks,
    roles (run_from U st content) = roles st ++ rs /\
    document (run_from U st content) = document st ++ blocks /\
    length rs = length blocks.
Proof.
  revert st. induction content as [|line content IH]; intros st.
  - exists [], []. cbn. by rewrite !app_nil_r.
  - cbn [run_from foldl]. destruct (IH (step U st line)) as (rs & blocks & Hr & Hd & Hl).
    unfold run_from in *. rewrite Hr, Hd. unfold step.
    destruct (is_nil (strip U (text line))).
    + eauto.
    + cbn. eexists (_ :: rs), (_ :: blocks).
      rewrite <- !app_assoc. cbn. repeat split; f_equal; done.
Qed.

Lemma run_from_head st content r rs :
  roles st = r :: rs -> head (roles (run_from U st content)) = Some r.
Proof.
  intros H. destruct (run_from_extends st content) as (rs' & ? & -> & _ & _).
  by rewrite H.
Qed.

(** [previous_style] is the style name of the role recorded last. *)
Lemma previous_style_step st line :
  previous_style st = style_name <$> last (roles st) ->
  previous_style (step U st line) = style_name <$> last (roles (step U st line)).
Proof.
  intros H. unfold step. destruct (is_nil (strip U (text line))); [done|].
  cbn. by rewrite last_snoc.
Qed.

Lemma previous_style_run st content :
  previous_style st = style_name <$> last (roles st) ->
  previous_style (run_from U st content)
  = style_name <$> last (roles (run_from U st content)).
Proof.
  revert st. induction content as [|line content IH]; intros st H; [done|].
  cbn. apply IH. by apply previous_style_step.
Qed.

Lemma run_from_snoc st content line :
  run_from U st (content ++ [line]) = step U (run_from U st content) line.
Proof. by rewrite run_from_app. Qed.

Lemma is_nil_snoc {A} (l : list A) (x : A) : is_nil (l ++ [x]) = false.
Proof. by destruct l. Qed.

Lemma is_nil_false {A} (l : list A) : is_nil l = false <-> l <> [].
Proof. by destruct l. Qed.

Lemma is_section_nonempty text : is_section U text = true -> text <> [].
Proof. intros H ->. discriminate H. Qed.

(** The state after a section header. *)
Lemma step_header st header :
  is_section U (strip U (text header)) = true ->
  exists blocks,
    document (step U st header) = blocks /\ blocks <> [] /\
    previous_style (step U st header) = Some (lit "SectionStyle") /\
    last (roles (step U st header)) = Some SectionHeader.
Proof.
  intros H. rewrite step_line by by apply is_section_nonempty.
  cbn. rewrite role_of_section by done. eexists. split; [done|].
  split; [by destruct (document st)|]. by rewrite last_snoc.
Qed.

(** The block of a label line. *)
Lemma label_value_block prev text :
  exists label value,
    runs (block_of U prev LabelValue text)
      = [Run (label ++ [colon]) true; Run value false] /\
    (colon ∉ label) /\
    (contains [colon] text = true ->
       text = label ++ colon :: value /\
       Docx.text (block_of U prev LabelValue text) = text) /\
    (contains [colon] text = false ->
       label = text /\ value = [] /\
       Docx.text (block_of U prev LabelValue text) = text ++ [colon]).
Proof.
  unfold Docx.text. cbn [block_of runs runs_of].
  destruct (find_sep [colon] text) as [[label value]|] eqn:F.
  - exists label, value. pose proof (find_sep_Some _ _ _ _ F) as E.
    split; [done|]. split; [by eapply find_sep_char_first|]. split.
    + intros _. split; [done|]. cbn. by rewrite app_nil_r, <- app_assoc.
    + intros H. apply find_sep_None in H. congruence.
  - exists text, []. apply find_sep_None in F.
    split; [done|]. split; [|split].
    + intros H%contains_char. congruence.
    + congruence.
    + intros _. repeat split. cbn. by rewrite !app_nil_r.
Qed.

(** *** Reading a rendered block back *)

Lemma contains_strip_inv (w s : str) :
  contains w (strip U s) = true -> contains w s = true.
Proof.
  intros H. destruct (strip_middle U s) as (a & b & E). rewrite E.
  by apply contains_within.
Qed.

Lemma contains_char_snoc (x d : N) (s : str) :
  x <> d -> contains [x] (s ++ [d]) = contains [x] s.
Proof.
  intros Hx. apply eq_true_iff_eq. rewrite !contains_char. set_solver.
Qed.

Lemma text_same prev r text :
  r = SectionHeader \/ r = PlainText ->
  Docx.text (block_of U prev r text) = text.
Proof. intros [-> | ->]; cbn; by rewrite app_nil_r. Qed.

Lemma reclassify_same first prev text r :
  text <> [] -> strip U text = text ->
  role_of U first prev text = r ->
  Docx.text (block_of U prev r text) = text ->
  strip U (Docx.text (block_of U prev r text)) <> [] /\
  role_of U first prev (strip U (Docx.text (block_of U prev r text))) = r.
Proof. intros Hne Hs Hr ->. by rewrite Hs. Qed.

Lemma institution_text_sub prev text x :
  x ∈ Docx.text (block_of U prev InstitutionRow text) -> x ∈ text.
Proof.
  unfold Docx.text. cbn [block_of runs runs_of].
  destruct (split [tab] text) as [|p0 [|p1 more]] eqn:E;
    [by intros ?%elem_of_nil | by intros ?%elem_of_nil |].
  assert (Htab : tab ∈ text).
  { destruct (decide (tab ∈ text)) as [|Hn]; [done|].
    rewrite split_char_none in E by done. discriminate. }
  assert (H0 : forall y, y ∈ p0 -> y ∈ text).
  { intros y. apply (split_char_sub tab). rewrite E. set_solver. }
  assert (H1 : forall y, y ∈ p1 -> y ∈ text).
  { intros y. apply (split_char_sub tab). rewrite E. set_solver. }
  destruct more as [|p2 more]; cbn; rewrite ?app_nil_r.
  - intros [H|[->|H]%elem_of_cons]%elem_of_app; auto.
  - assert (H2 : forall y, y ∈ p2 -> y ∈ text).
    { intros y. apply (split_char_sub tab). rewrite E. set_solver. }
    intros [H|[->|[H|[->|H]%elem_of_cons]%elem_of_app]%elem_of_cons]%elem_of_app;
      auto.
Qed.

End WithTables.

Section Reclassify.
Context (U : Unicode) (HU : agrees_on_ascii U).

Lemma space_bullet : isspace U bullet = false.
Proof. apply (bullet_not_space U HU). Qed.

Lemma space_at : isspace U at_sign = false.
Proof. by rewrite (agree_space U HU). Qed.

Lemma space_colon : isspace U colon = false.
Proof. by rewrite (agree_space U HU). Qed.

Lemma has_lower_not_section (c : N) (text : str) :
  c < 128 -> ascii_islower c = true -> c ∈ text -> is_section U text = false.
Proof.
  intros Hc Hl Hin. unfold is_section.
  rewrite (isupper_lower_char U c text); [done | done |].
  by rewrite (agree_lower U HU).
Qed.

Lemma has_bullet_not_section (text : str) :
  bullet ∈ text -> is_section U text = false.
Proof.
  intros H%contains_char. unfold is_section. rewrite H.
  by rewrite andb_false_r.
Qed.

Lemma reclassify_contact first prev text :
  is_contact text = true ->
  strip U (Docx.text (block_of U prev ContactLine text)) <> [] /\
  role_of U first prev (strip U (Docx.text (block_of U prev ContactLine text)))
  = ContactLine.
Proof.
  unfold is_contact. intros [Ha%contains_char Hb%contains_char]%andb_true_iff.
  unfold Docx.text. cbn [block_of runs runs_of map run_text concat].
  rewrite app_nil_r.
  set (u := join _ _).
  assert (Hbu : bullet ∈ u).
  { unfold u. destruct (split_char_two _ _ Hb) as (p & q & rest & ->).
    cbn [map]. rewrite join_cons2. set_solver. }
  assert (Hau : at_sign ∈ u).
  { unfold u. destruct (split_char_elem bullet text at_sign) as (piece & Hp & Hin);
      [done | done |].
    apply (elem_of_join _ _ (strip U piece)).
    - apply list_elem_of_fmap. eauto.
    - apply elem_of_strip; [done | apply space_at]. }
  assert (Hbs : bullet ∈ strip U u) by (apply elem_of_strip; [done | apply space_bullet]).
  assert (Has : at_sign ∈ strip U u) by (apply elem_of_strip; [done | apply space_at]).
  split.
  - intros E. rewrite E in Hbs. by apply elem_of_nil in Hbs.
  - apply role_of_contact; [by apply has_bullet_not_section|].
    unfold is_contact. apply andb_true_iff. by rewrite !contains_char.
Qed.

Lemma reclassify_institution prev text :
  is_contact text = false ->
  style_is prev (lit "SectionStyle") = true ->
  contains (lit "University")
    (strip U (Docx.text (block_of U prev InstitutionRow text))) = true ->
  strip U (Docx.text (block_of U prev InstitutionRow text)) <> [] /\
  role_of U false prev (strip U (Docx.text (block_of U prev InstitutionRow text)))
  = InstitutionRow.
Proof.
  intros Hc Hp Hu. set (text' := strip U _) in *.
  assert (Hn : 110 ∈ text').
  { apply contains_true in Hu as (a & b & ->). set_solver. }
  split.
  - intros E. rewrite E in Hn. by apply elem_of_nil in Hn.
  - unfold role_of. rewrite (has_lower_not_section 110) by done.
    assert (Hc' : is_contact text' = false).
    { apply not_true_is_false. unfold is_contact.
      intros [Ha%contains_char Hb%contains_char]%andb_true_iff.
      apply elem_of_strip_inv, institution_text_sub in Ha.
      apply elem_of_strip_inv, institution_text_sub in Hb.
      unfold is_contact in Hc. apply contains_char in Ha, Hb.
      by rewrite Ha, Hb in Hc. }
    by rewrite Hc', Hp, Hu.
Qed.

Lemma university_plain (c : N) : c ∈ [bullet; space; 45; colon] -> c ∉ lit "University".
Proof.
  intros Hc Hin.
  repeat (apply elem_of_cons in Hc as [->|Hc];
          [repeat (apply elem_of_cons in Hin as [Hin|Hin]; [discriminate Hin|]);
           by apply elem_of_nil in Hin|]).
  by apply elem_of_nil in Hc.
Qed.

Lemma no_university_in_nil : contains (lit "University") [] = false.
Proof. reflexivity. Qed.

(** The text of a bullet block: the bullet, a space and a body built
    from parts of the line. *)
Lemma bullet_text prev t1 :
  exists body,
    Docx.text (block_of U prev BulletEntry (bullet :: t1)) = bullet :: space :: body /\
    (forall x, x ∈ body -> x ∈ t1 \/ x = space \/ x = 45) /\
    (contains (lit "University") body = true ->
     contains (lit "University") t1 = true).
Proof.
  unfold Docx.text. cbn [block_of runs runs_of tail].
  destruct (find_sep (lit " - ") (strip U t1)) as [[title description]|] eqn:F.
  - pose proof (find_sep_Some _ _ _ _ F) as E.
    exists (strip U title ++ space :: 45 :: space :: strip U description).
    split; [cbn; by rewrite app_nil_r|]. split.
    + intros x [H|[->|[->|[->|H]%elem_of_cons]%elem_of_cons]%elem_of_cons]%elem_of_app;
        auto.
      * left. apply (elem_of_strip_inv U). rewrite E.
        apply elem_of_strip_inv in H. set_solver.
      * left. apply (elem_of_strip_inv U). rewrite E.
        apply elem_of_strip_inv in H. set_solver.
    + intros H. apply (contains_strip_inv U). rewrite E.
      apply contains_cut in H as [H|H];
        [ | | apply university_plain; set_solver].
      * apply contains_app_l. by apply contains_strip_inv in H.
      * apply (contains_cut _ []) in H as [H|H];
          [done | | apply university_plain; set_solver].
        apply (contains_cut _ []) in H as [H|H];
          [done | | apply university_plain; set_solver].
        apply contains_app_r, contains_app_r. by apply contains_strip_inv in H.
  - exists (strip U t1). split; [cbn; by rewrite app_nil_r|]. split.
    + intros x H. left. by apply elem_of_strip_inv in H.
    + apply contains_strip_inv.
Qed.

Lemma reclassify_bullet prev t1 :
  is_contact (bullet :: t1) = false ->
  style_is prev (lit "SectionStyle")
    && contains (lit "University") (bullet :: t1) = false ->
  strip U (Docx.text (block_of U prev BulletEntry (bullet :: t1))) <> [] /\
  role_of U false prev (strip U (Docx.text (block_of U prev BulletEntry (bullet :: t1))))
  = BulletEntry.
Proof.
  intros Hc Hedu.
  destruct (bullet_text prev t1) as (body & -> & Hsub & Huni).
  rewrite strip_cons by apply space_bullet.
  split; [done|].
  assert (Hat : at_sign ∉ t1).
  { intros H. unfold is_contact in Hc.
    assert (Ha : contains [at_sign] (bullet :: t1) = true)
      by (apply contains_char; set_solver).
    assert (Hb : contains [bullet] (bullet :: t1) = true)
      by (apply contains_char; set_solver).
    by rewrite Ha, Hb in Hc. }
  assert (Hrs : forall x, x ∈ rstrip U (space :: body) -> x ∈ space :: body)
    by (intros x; apply elem_of_rstrip_inv).
  unfold role_of.
  rewrite has_bullet_not_section by set_solver.
  assert (Hc' : is_contact (bullet :: rstrip U (space :: body)) = false).
  { apply not_true_is_false. unfold is_contact.
    intros [Ha%contains_char _]%andb_true_iff.
    apply elem_of_cons in Ha as [Ha|Ha]; [discriminate Ha|].
    apply Hrs in Ha. apply elem_of_cons in Ha as [Ha|Ha]; [discriminate Ha|].
    destruct (Hsub _ Ha) as [H|[H|H]]; [done | discriminate H | discriminate H]. }
  rewrite Hc'.
  assert (He' : style_is prev (lit "SectionStyle")
                && contains (lit "University") (bullet :: rstrip U (space :: body)) = false).
  { destruct (style_is prev (lit "SectionStyle")); [|done].
    rewrite andb_true_l in Hedu. rewrite andb_true_l.
    apply not_true_is_false. intros H.
    assert (H' : contains (lit "University") (bullet :: space :: body) = true).
    { rewrite <- (strip_cons U bullet (space :: body)) in H by apply space_bullet.
      by apply contains_strip_inv in H. }
    apply (contains_cut _ []) in H' as [H'|H'];
      [done | | apply university_plain; set_solver].
    apply (contains_cut _ []) in H' as [H'|H'];
      [done | | apply university_plain; set_solver].
    apply Huni in H'. apply (contains_app_r _ [bullet]) in H'. cbn [app] in H'.
    congruence. }
  rewrite He'. reflexivity.
Qed.

Lemma reclassify_label prev text :
  text <> [] -> strip U text = text ->
  is_contact text = false ->
  contains (lit "University") text = false ->
  startswith text [bullet] = false ->
  style_is prev (lit "SectionStyle") = true ->
  contains (lit "Courses") text || contains (lit "Skills") text = true ->
  strip U (Docx.text (block_of U prev LabelValue text)) <> [] /\
  role_of U false prev (strip U (Docx.text (block_of U prev LabelValue text)))
  = LabelValue.
Proof.
  intros Hne Hs Hc Hu Hb Hp Hl.
  assert (Hrole : role_of U false prev text = LabelValue).
  { unfold role_of.
    assert (H115 : 115 ∈ text).
    { apply orb_true_iff in Hl as [H|H];
        apply contains_true in H as (a & b & ->); set_solver. }
    rewrite (has_lower_not_section 115) by done.
    by rewrite Hc, Hp, Hu, Hb, Hl. }
  destruct (label_value_block U prev text) as (label & value & _ & _ & Hyes & Hno).
  destruct (contains [colon] text) eqn:Hcolon.
  - destruct (Hyes eq_refl) as [_ ->]. by rewrite Hs.
  - destruct (Hno eq_refl) as (_ & _ & ->).
    destruct text as [|c t'] eqn:Et; [done|].
    assert (Hsc : isspace U c = false) by (by apply (strip_head U _ _ _ Hs)).
    change ((c :: t') ++ [colon]) with (c :: t' ++ [colon]).
    rewrite strip_trimmed by (done || apply space_colon).
    split; [done|]. unfold role_of.
    assert (H115 : 115 ∈ c :: t').
    { apply orb_true_iff in Hl as [H|H];
        apply contains_true in H as (a & b & ->); set_solver. }
    rewrite (has_lower_not_section 115) by set_solver.
    assert (Hc' : is_contact (c :: t' ++ [colon]) = false).
    { unfold is_contact in *.
      change (c :: t' ++ [colon]) with ((c :: t') ++ [colon]).
      by rewrite !contains_char_snoc. }
    rewrite Hc', Hp.
    assert (Hu' : contains (lit "University") (c :: t' ++ [colon]) = false).
    { apply not_true_is_false. intros H.
      change (c :: t' ++ [colon]) with ((c :: t') ++ colon :: []) in H.
      apply contains_cut in H as [H|H];
        [congruence | done | apply university_plain; set_solver]. }
    rewrite Hu'.
    assert (Hb' : startswith (c :: t' ++ [colon]) [bullet] = false) by exact Hb.
    rewrite Hb'.
    assert (Hl' : contains (lit "Courses") (c :: t' ++ [colon])
                  || contains (lit "Skills") (c :: t' ++ [colon]) = true).
    { change (c :: t' ++ [colon]) with ((c :: t') ++ [colon]).
      apply orb_true_iff in Hl as [H|H]; apply orb_true_iff; [left|right];
        by apply contains_app_l. }
    by rewrite Hl'.
Qed.

(** A rendered block that [keeps_role] is classified, in the state in
    which its line was classified, as its line was. *)
Lemma reclassify_block first prev text :
  text <> [] -> strip U text = text ->
  keeps_role U (role_of U first prev text)
    (block_of U prev (role_of U first prev text) text) = true ->
  strip U (Docx.text (block_of U prev (role_of U first prev text) text)) <> [] /\
  role_of U first prev
    (strip U (Docx.text (block_of U prev (role_of U first prev text) text)))
  = role_of U first prev text.
Proof.
  intros Hne Hs.
  destruct (is_section U text) eqn:Hsec.
  { intros _. apply reclassify_same; try done.
    rewrite role_of_section by done. apply text_same. by left. }
  destruct (is_contact text) eqn:Hcon.
  { intros _. rewrite (role_of_contact U first prev text) by done.
    by apply reclassify_contact. }
  destruct first.
  { rewrite (role_of_first U prev text) by done.
    unfold keeps_role. intros [[Hn Hse]%andb_true_iff Hco]%andb_true_iff.
    apply negb_true_iff in Hn, Hse, Hco. split; [by apply is_nil_false|].
    by apply role_of_first. }
  destruct (style_is prev (lit "SectionStyle")
            && contains (lit "University") text) eqn:Hedu.
  { assert (Hr : role_of U false prev text = InstitutionRow)
      by (unfold role_of; by rewrite Hsec, Hcon, Hedu).
    rewrite Hr. apply andb_true_iff in Hedu as [Hp Hu]. unfold keeps_role.
    by apply reclassify_institution. }
  destruct (startswith text [bullet]) eqn:Hb.
  { assert (Hr : role_of U false prev text = BulletEntry)
      by (unfold role_of; by rewrite Hsec, Hcon, Hedu, Hb).
    rewrite Hr. intros _. apply startswith_true in Hb as [t1 ->].
    by apply reclassify_bullet. }
  destruct (style_is prev (lit "SectionStyle")
            && (contains (lit "Courses") text || contains (lit "Skills") text)) eqn:Hl.
  { assert (Hr : role_of U false prev text = LabelValue)
      by (unfold role_of; by rewrite Hsec, Hcon, Hedu, Hb, Hl).
    rewrite Hr. intros _. apply andb_true_iff in Hl as [Hp Hl]. rewrite Hp in Hedu.
    by apply reclassify_label. }
  assert (Hr : role_of U false prev text = PlainText)
    by (unfold role_of; by rewrite Hsec, Hcon, Hedu, Hb, Hl).
  intros _. apply reclassify_same; try done.
  rewrite Hr. apply text_same. by right.
Qed.

(** Two runs in step: the first over the lines, the second over the
    blocks the first has emitted. *)
Lemma rerun_roles content : forall st sa rs blocks,
  is_nil (document st) = is_nil (document sa) ->
  previous_style st = previous_style sa ->
  roles (run_from U st content) = roles st ++ rs ->
  document (run_from U st content) = document st ++ blocks ->
  all_keep U rs blocks = true ->
  roles (run_from U sa blocks) = roles sa ++ rs.
Proof.
  induction content as [|line content IH]; intros st sa rs blocks Hd Hp Hr Hb Hk.
  - cbn in Hr, Hb.
    rewrite <- (app_nil_r (roles st)) in Hr at 1. apply app_inv_head in Hr as <-.
    rewrite <- (app_nil_r (document st)) in Hb at 1. apply app_inv_head in Hb as <-.
    cbn. by rewrite app_nil_r.
  - rewrite run_from_cons in Hr, Hb.
    destruct (decide (strip U (Docx.text line) = [])) as [E|E].
    { rewrite step_blank in Hr, Hb by done. by apply (IH st). }
    rewrite step_line in Hr, Hb by done. cbn zeta in Hr, Hb.
    set (text := strip U (Docx.text line)) in *.
    set (r := role_of U (is_nil (document st)) (previous_style st) text) in *.
    set (b := block_of U (previous_style st) r text) in *.
    set (st' := {| document := document st ++ [b];
                   previous_style := Some (style_name r);
                   roles := roles st ++ [r] |}) in *.
    destruct (run_from_extends U st' content) as (rs' & blocks' & Hr' & Hb' & _).
    assert (Ers : rs = r :: rs').
    { rewrite Hr' in Hr. cbn [roles st'] in Hr. rewrite <- app_assoc in Hr.
      by apply app_inv_head in Hr. }
    assert (Ebs : blocks = b :: blocks').
    { rewrite Hb' in Hb. cbn [document st'] in Hb. rewrite <- app_assoc in Hb.
      by apply app_inv_head in Hb. }
    subst rs blocks. cbn [all_keep] in Hk.
    apply andb_true_iff in Hk as [Hkb Hk].
    destruct (reclassify_block (is_nil (document st)) (previous_style st) text)
      as [Hne Hrole]; [done | apply strip_idem | exact Hkb |].
    fold r in Hne, Hrole. fold b in Hne, Hrole.
    rewrite run_from_cons, step_line by done. cbn zeta.
    rewrite <- Hd, <- Hp, Hrole.
    rewrite (IH st' _ rs' blocks'); cbn [roles document previous_style]; try done.
    + rewrite <- app_assoc. reflexivity.
    + subst st'. cbn [document]. by rewrite !is_nil_snoc.
Qed.

End Reclassify.

End ResumeFacts.

(** ** The role of the first line and the classifier's memory *)

Module ResumeSpec.
Import Py PyFacts Docx Resume Classifier ResumeFacts.

(** C1, as the specification words it, fails: an upper-case first line
    ("JANE DOE") is handled by the section-header branch, which is tested
    before the position of the line is looked at. *)
Lemma first_line_upper_case_is_section_header :
  exists st,
    format_resume ascii_tables [plain (lit "JANE DOE")] [] = Ret st /\
    roles st = [SectionHeader].
Proof. eexists. split; [vm_compute; reflexivity | reflexivity]. Qed.

(** A first line holding both '@' and the bullet is a contact line. *)
Lemma first_line_contact_is_contact_line :
  exists st,
    format_resume ascii_tables
      [plain (lit "jane@x.com " ++ bullet :: lit " 555-1234")] [] = Ret st /\
    roles st = [ContactLine].
Proof. eexists. split; [vm_compute; reflexivity | reflexivity]. Qed.

(** C1 (amended): the first line that is not empty after trimming is
    given the role the section-header and contact tests leave for it:
    SectionHeader when it is upper case without bullet and '@',
    ContactLine when it holds both '@' and a bullet, and Name in every
    other case. *)
Theorem first_line_role (U : Unicode) (blanks : list paragraph)
    (line : paragraph) (rest : list paragraph) :
  Forall (fun l => strip U (Docx.text l) = []) blanks ->
  strip U (Docx.text line) <> [] ->
  exists st,
    format_resume U (blanks ++ line :: rest) [] = Ret st /\
    head (roles st) =
      Some (let text := strip U (Docx.text line) in
            if is_section U text then SectionHeader
            else if is_contact text then ContactLine
            else Name).
Proof.
  intros Hblank Hline. eexists. split; [apply format_resume_eq|].
  rewrite run_from_app, (run_from_blank U _ blanks Hblank).
  rewrite run_from_cons, step_line by done.
  erewrite run_from_head; [|reflexivity].
  cbn. unfold role_of.
  destruct (is_section U (strip U (text line))); [done|].
  destruct (is_contact (strip U (text line))); done.
Qed.

Lemma first_line_role_witness :
  exists st,
    format_resume ascii_tables
      ([plain (lit "  ")] ++ plain (lit "Jane Doe") :: [plain (lit "EDUCATION")]) [] = Ret st /\
    head (roles st) = Some Name.
Proof.
  apply (first_line_role ascii_tables [plain (lit "  ")] (plain (lit "Jane Doe"))
           [plain (lit "EDUCATION")]).
  - repeat constructor.
  - vm_compute. discriminate.
Defined.

(** C6, as the specification words it, fails: after a bullet entry and
    after a plain line the classifier remembers the same thing, the style
    name "ContentStyle". *)
Lemma memory_does_not_separate_bullet_from_plain :
  exists st1 st2,
    format_resume ascii_tables
      [plain (lit "Jane Doe"); plain (bullet :: lit " Built a thing")] [] = Ret st1 /\
    format_resume ascii_tables
      [plain (lit "Jane Doe"); plain (lit "Worked hard")] [] = Ret st2 /\
    last (roles st1) = Some BulletEntry /\
    last (roles st2) = Some PlainText /\
    previous_style st1 = Some (lit "ContentStyle") /\
    previous_style st2 = Some (lit "ContentStyle").
Proof.
  do 2 eexists. split; [vm_compute; reflexivity|].
  split; [vm_compute; reflexivity|]. repeat split.
Qed.

(** C6 (amended): after every line, [previous_style] is the style name
    of the role just assigned (and is unchanged by a line that is empty
    after trimming). The style name tells Name, ContactLine, SectionHeader
    and InstitutionRow apart; BulletEntry, LabelValue and PlainText share
    the name "ContentStyle". *)
Theorem previous_style_is_style_of_last_role (U : Unicode)
    (content document : list paragraph) :
  exists st,
    format_resume U content document = Ret st /\
    previous_style st = style_name <$> last (roles st) /\
    (forall r1 r2, style_name r1 = style_name r2 ->
       r1 = r2 \/
       (r1 ∈ [BulletEntry; LabelValue; PlainText] /\
        r2 ∈ [BulletEntry; LabelValue; PlainText])) /\
    style_name BulletEntry = lit "ContentStyle" /\
    style_name LabelValue = lit "ContentStyle" /\
    style_name PlainText = lit "ContentStyle".
Proof.
  eexists. split; [apply format_resume_eq|].
  split; [by apply previous_style_run|].
  split; [|done].
  intros r1 r2 H.
  destruct r1, r2; try (by left); try discriminate H;
    right; split; set_solver.
Qed.

(** ** Institution rows, contact lines and label lines *)

(** The contact branch comes before the content branch: a line after a
    section header that holds "University" and also '@' and a bullet is
    a contact line. *)
Lemma university_line_with_contact_marks_is_contact_line :
  exists st,
    format_resume ascii_tables
      [plain (lit "EDUCATION");
       plain (lit "State University " ++ bullet :: lit " admissions@state.edu")] []
    = Ret st /\
    roles st = [SectionHeader; ContactLine].
Proof. eexists. split; [vm_compute; reflexivity | reflexivity]. Qed.

(** C3: the code departs from the specification. The line
    "Stanford University" after the header "EDUCATION" is an
    InstitutionRow, as the specification says, but it has no tab, and
    the branch adds its runs only under [if len(parts) >= 2:], which has
    no [else]: the block is an empty 'EducationStyle' paragraph and the
    text of the line, which the specification renders as the
    institution part, is lost. The sibling branches keep a line that
    lacks their delimiter: the bullet entry without " - " and the
    label line without ':' are rendered in full. *)
Theorem institution_row_without_tab_is_empty :
  (exists st block,
     format_resume ascii_tables
       [plain (lit "EDUCATION"); plain (lit "Stanford University")] [] = Ret st /\
     roles st = [SectionHeader; InstitutionRow] /\
     last (document st) = Some block /\
     style block = lit "EducationStyle" /\
     runs block = [] /\ Docx.text block = []) /\
  (exists st block,
     format_resume ascii_tables
       [plain (lit "PROJECTS"); plain (bullet :: lit " Parser")] [] = Ret st /\
     roles st = [SectionHeader; BulletEntry] /\
     last (document st) = Some block /\
     Docx.text block = bullet :: lit " Parser") /\
  (exists st block,
     format_resume ascii_tables
       [plain (lit "SKILLS"); plain (lit "Skills")] [] = Ret st /\
     roles st = [SectionHeader; LabelValue] /\
     last (document st) = Some block /\
     Docx.text block = lit "Skills:").
Proof.
  repeat split; do 2 eexists; (split; [vm_compute; reflexivity | done]).
Qed.

(** An institution row with at least two tab-separated parts: a line
    that comes right after a SectionHeader, holds "University" and does
    not hold both '@' and a bullet is an InstitutionRow, and the block
    is the institution in bold, then a tab and the degree, then, if
    there is a third part, a tab and the date. *)
Theorem institution_row (U : Unicode) (pre : list paragraph)
    (header line : paragraph) :
  agrees_on_ascii U ->
  is_section U (strip U (Docx.text header)) = true ->
  contains (lit "University") (strip U (Docx.text line)) = true ->
  is_contact (strip U (Docx.text line)) = false ->
  exists st block,
    format_resume U (pre ++ [header; line]) [] = Ret st /\
    last (roles st) = Some InstitutionRow /\
    last (document st) = Some block /\
    style block = lit "EducationStyle" /\
    forall p0 p1 more,
      split [tab] (strip U (Docx.text line)) = p0 :: p1 :: more ->
      runs block =
        [Run p0 true; Run (tab :: p1) false]
        ++ match more with
           | p2 :: _ => [Run (tab :: p2) false]
           | [] => []
           end.
Proof.
  intros HU Hh Hu Hc.
  set (text := strip U (Docx.text line)) in *.
  assert (Hs : is_section U text = false).
  { unfold is_section. rewrite (isupper_lower_char U 110 text); [done| |].
    - apply contains_true in Hu as (a & b & ->). set_solver.
    - by rewrite (agree_lower U HU). }
  assert (Hne : text <> []).
  { apply contains_true in Hu as (a & b & H). intros E. rewrite E in H.
    by destruct a. }
  do 2 eexists. split; [apply format_resume_eq|].
  change (pre ++ [header; line]) with (pre ++ [header] ++ [line]).
  rewrite app_assoc, run_from_snoc, run_from_snoc.
  destruct (step_header U (run_from U (initial []) pre) header Hh)
    as (blocks & Hd & Hb & Hp & _).
  rewrite step_line by done. cbn zeta. fold text. rewrite Hd, Hp.
  assert (Hr : role_of U (is_nil blocks) (Some (lit "SectionStyle")) text = InstitutionRow).
  { unfold role_of. rewrite Hs, Hc, Hu. by destruct blocks. }
  rewrite Hr. cbn [roles document]. rewrite !last_snoc.
  repeat split. intros p0 p1 more Hsp. cbn. by rewrite Hsp.
Qed.

Lemma institution_row_witness :
  exists st block,
    format_resume ascii_tables
      ([plain (lit "Jane Doe")] ++
       [plain (lit "EDUCATION");
        plain (lit "Acme University" ++ tab :: lit "BS CS" ++ tab :: lit "2022")]) []
    = Ret st /\
    last (roles st) = Some InstitutionRow /\
    last (document st) = Some block /\
    style block = lit "EducationStyle" /\
    runs block = [Run (lit "Acme University") true;
                  Run (tab :: lit "BS CS") false;
                  Run (tab :: lit "2022") false].
Proof.
  destruct (institution_row ascii_tables [plain (lit "Jane Doe")]
              (plain (lit "EDUCATION"))
              (plain (lit "Acme University" ++ tab :: lit "BS CS" ++ tab :: lit "2022"))
              ascii_tables_agree eq_refl eq_refl eq_refl)
    as (st & block & H1 & H2 & H3 & H4 & H5).
  exists st, block. repeat split; try done.
  apply (H5 (lit "Acme University") (lit "BS CS") [lit "2022"]). reflexivity.
Defined.

(** C7: a line that holds both '@' and a bullet is a ContactLine,
    wherever it stands, and its rendered text is the pieces between the
    bullets, each trimmed, joined again with " • ". *)
Theorem contact_line (U : Unicode) (pre document : list paragraph)
    (line : paragraph) :
  agrees_on_ascii U ->
  contains [at_sign] (Docx.text line) = true ->
  contains [bullet] (Docx.text line) = true ->
  exists st block,
    format_resume U (pre ++ [line]) document = Ret st /\
    last (roles st) = Some ContactLine /\
    last (Resume.document st) = Some block /\
    style block = lit "ContactStyle" /\
    Docx.text block =
      join (space :: bullet :: [space])
           (map (strip U) (split [bullet] (strip U (Docx.text line)))) /\
    Docx.text block =
      join (space :: bullet :: [space])
           (map (strip U) (split [bullet] (Docx.text line))).
Proof.
  intros HU Ha Hb.
  set (text := strip U (Docx.text line)).
  assert (Ha' : contains [at_sign] text = true).
  { apply contains_char, elem_of_strip; [by apply contains_char|].
    by rewrite (agree_space U HU). }
  assert (Hb' : contains [bullet] text = true).
  { apply contains_char, elem_of_strip; [by apply contains_char|].
    apply (bullet_not_space U HU). }
  assert (Hne : text <> []).
  { intros E. rewrite E in Ha'. discriminate. }
  do 2 eexists. split; [apply format_resume_eq|].
  rewrite run_from_snoc, step_line by done. cbn zeta. fold text.
  rewrite role_of_contact.
  - cbn [roles Resume.document]. rewrite !last_snoc.
    assert (E : Docx.text (block_of U (previous_style (run_from U (initial document) pre))
                             ContactLine text)
                = join (space :: bullet :: [space]) (map (strip U) (split [bullet] text))).
    { unfold Docx.text. cbn. by rewrite app_nil_r. }
    repeat split; [exact E|]. rewrite E. unfold text.
    by rewrite split_strip by apply (bullet_not_space U HU).
  - unfold is_section. rewrite Hb'. by rewrite andb_false_r.
  - unfold is_contact. by rewrite Ha', Hb'.
Qed.

Lemma contact_line_witness :
  exists st block,
    format_resume ascii_tables
      ([plain (lit "Jane Doe")] ++
       [plain (lit " jane@x.com" ++ bullet :: lit "555-1234  " ++ bullet :: lit " Austin ")]) []
    = Ret st /\
    last (roles st) = Some ContactLine /\
    last (Resume.document st) = Some block /\
    style block = lit "ContactStyle" /\
    Docx.text block =
      lit "jane@x.com " ++ bullet :: lit " 555-1234 " ++ bullet :: lit " Austin".
Proof.
  destruct (contact_line ascii_tables [plain (lit "Jane Doe")] []
              (plain (lit " jane@x.com" ++ bullet :: lit "555-1234  " ++ bullet :: lit " Austin "))
              ascii_tables_agree eq_refl eq_refl)
    as (st & block & H1 & H2 & H3 & H4 & H5 & _).
  exists st, block.
  split; [exact H1|]. split; [exact H2|]. split; [exact H3|]. split; [exact H4|].
  exact H5.
Defined.

(** C10: the block of a LabelValue line is a bold label closed by a
    colon, followed by the value. The label is the text before the first
    colon of the line; a line without a colon is its own label and the
    block reads as the line with ':' appended. *)
Theorem label_value_colon (U : Unicode) (pre document : list paragraph)
    (line : paragraph) (st : fstate) :
  strip U (Docx.text line) <> [] ->
  format_resume U (pre ++ [line]) document = Ret st ->
  last (roles st) = Some LabelValue ->
  exists block, last (Resume.document st) = Some block /\ exists label value,
    runs block = [Run (label ++ [colon]) true; Run value false] /\
    (colon ∉ label) /\
    (contains [colon] (strip U (Docx.text line)) = true ->
       strip U (Docx.text line) = label ++ colon :: value /\
       Docx.text block = strip U (Docx.text line)) /\
    (contains [colon] (strip U (Docx.text line)) = false ->
       label = strip U (Docx.text line) /\ value = [] /\
       Docx.text block = strip U (Docx.text line) ++ [colon]).
Proof.
  intros Hne. rewrite format_resume_eq. intros [= <-].
  rewrite run_from_snoc, step_line by done. cbn zeta.
  cbn [roles Resume.document]. rewrite !last_snoc. intros [= ->].
  eexists. split; [reflexivity|]. apply label_value_block.
Qed.

Lemma label_value_colon_witness :
  exists block,
    last (Resume.document
            (run_from ascii_tables (initial [])
               ([plain (lit "Jane Doe"); plain (lit "SKILLS")] ++
                [plain (lit "Technical Skills")])))
    = Some block /\ exists label value,
    runs block = [Run (label ++ [colon]) true; Run value false] /\
    (colon ∉ label) /\
    (contains [colon] (lit "Technical Skills") = true ->
       lit "Technical Skills" = label ++ colon :: value /\
       Docx.text block = lit "Technical Skills") /\
    (contains [colon] (lit "Technical Skills") = false ->
       label = lit "Technical Skills" /\ value = [] /\
       Docx.text block = lit "Technical Skills" ++ [colon]).
Proof.
  apply (label_value_colon ascii_tables
           [plain (lit "Jane Doe"); plain (lit "SKILLS")] []
           (plain (lit "Technical Skills"))).
  - vm_compute. discriminate.
  - apply format_resume_eq.
  - vm_compute. reflexivity.
Defined.

(** ** The scenarios of the specification *)

(** Scenario 1: name, contact line, section header, institution row and
    bullet entry. *)
Example scenario_roles :
  classify ascii_tables
    [plain (lit "Jane Doe");
     plain (lit "jane@x.com " ++ bullet :: lit " 555-1234");
     plain (lit "EDUCATION");
     plain (lit "Acme University" ++ tab :: lit "BS CS" ++ tab :: lit "2022");
     plain (bullet :: lit " Built a thing - reduced latency 30%")]
  = [Name; ContactLine; SectionHeader; InstitutionRow; BulletEntry].
Proof. vm_compute. reflexivity. Qed.

(** Scenario 2: an empty line between a header and an institution row
    is skipped and leaves [previous_style] alone. *)
Example scenario_blank_line :
  classify ascii_tables
    [plain (lit "Jane Doe"); plain (lit "EDUCATION"); plain (lit "   ");
     plain (lit "Acme University" ++ tab :: lit "BS CS")]
  = [Name; SectionHeader; InstitutionRow].
Proof. vm_compute. reflexivity. Qed.

(** ** Classifying the rendered document again *)

(** C2, as the specification words it, fails: the name is rendered in
    upper case, and an upper-case line without bullet and '@' is a
    section header for the second run. *)
Lemma rendered_name_is_reclassified_as_section_header :
  exists st1 st2,
    format_resume ascii_tables
      [plain (lit "Jane Doe");
       plain (lit "jane@x.com " ++ bullet :: lit " 555-1234");
       plain (lit "EDUCATION")] [] = Ret st1 /\
    roles st1 = [Name; ContactLine; SectionHeader] /\
    map Docx.text (document st1)
      = [lit "JANE DOE"; lit "jane@x.com " ++ bullet :: lit " 555-1234";
         lit "EDUCATION"] /\
    format_resume ascii_tables (document st1) [] = Ret st2 /\
    roles st2 = [SectionHeader; ContactLine; SectionHeader].
Proof.
  do 2 eexists. split; [vm_compute; reflexivity|].
  split; [reflexivity|]. split; [reflexivity|].
  split; [vm_compute; reflexivity | reflexivity].
Qed.

(** C2 (amended): classifying the text of the rendered document again
    gives the same roles whenever the blocks of the two roles whose text
    is rewritten beyond recognition still pass for what they were: the
    upper-cased Name is not an upper-case line free of bullet and '@' (a
    section header) nor a contact line nor empty, and every InstitutionRow
    still shows "University" in what was rendered of it. SectionHeader,
    ContactLine, BulletEntry, LabelValue and PlainText blocks always keep
    their role. *)
Theorem reclassification_keeps_roles (U : Unicode) (content : list paragraph) :
  agrees_on_ascii U ->
  exists st1,
    format_resume U content [] = Ret st1 /\
    (all_keep U (roles st1) (document st1) = true ->
     exists st2,
       format_resume U (document st1) [] = Ret st2 /\
       roles st2 = roles st1).
Proof.
  intros HU. eexists. split; [apply format_resume_eq|].
  intros Hk. eexists. split; [apply format_resume_eq|].
  destruct (run_from_extends U (initial []) content) as (rs & blocks & Hr & Hb & _).
  cbn [initial roles document app] in Hr, Hb. rewrite Hr, Hb in Hk |- *.
  apply (rerun_roles U HU content (initial []) (initial []) rs blocks); try done.
  all: by rewrite ?Hr, ?Hb.
Qed.

Lemma reclassification_keeps_roles_witness :
  exists st1 st2,
    format_resume ascii_tables
      [plain (lit "Jane Doe (jane@x.com)");
       plain (lit "EDUCATION");
       plain (lit "Acme University" ++ tab :: lit "BS CS" ++ tab :: lit "2022");
       plain (bullet :: lit " Built a thing - reduced latency 30%");
       plain (lit "SKILLS");
       plain (lit "Skills and tools");
       plain (lit "Reading")] [] = Ret st1 /\
    roles st1 = [Name; SectionHeader; InstitutionRow; BulletEntry;
                 SectionHeader; LabelValue; PlainText] /\
    format_resume ascii_tables (document st1) [] = Ret st2 /\
    roles st2 = roles st1.
Proof.
  destruct (reclassification_keeps_roles ascii_tables
    [plain (lit "Jane Doe (jane@x.com)");
     plain (lit "EDUCATION");
     plain (lit "Acme University" ++ tab :: lit "BS CS" ++ tab :: lit "2022");
     plain (bullet :: lit " Built a thing - reduced latency 30%");
     plain (lit "SKILLS");
     plain (lit "Skills and tools");
     plain (lit "Reading")] ascii_tables_agree) as (st1 & H1 & H2).
  pose proof (Ret_inj _ _ (eq_trans (eq_sym (format_resume_eq _ _ _)) H1)) as E.
  assert (Hk : all_keep ascii_tables (roles st1) (document st1) = true)
    by (rewrite <- E; vm_compute; reflexivity).
  destruct (H2 Hk) as (st2 & H3 & H4).
  exists st1, st2.
  split; [exact H1|]. split; [|split; [exact H3 | exact H4]].
  rewrite <- E. vm_compute. reflexivity.
Defined.

End ResumeSpec.

(** ** The request handlers: extraction, serialization, file names *)

Module AppSpec.
Import Py PyFacts Docx App Demo.

#[local] Arguments endswith : simpl never.
#[local] Arguments startswith : simpl never.
#[local] Arguments path_join : simpl never.
#[local] Arguments lit : simpl never.
#[local] Arguments strip : simpl never.
#[local] Arguments split : simpl never.

Section WithWorld.
Context (U : Unicode) (W : world).

(** [read_docx] turns every exception of the parser into [exit(1)]. *)
Lemma read_docx_unreadable path e :
  open_path W path = Raise e -> read_docx W path = SystemExit 1.
Proof. unfold read_docx. by intros ->. Qed.

Lemma read_docx_readable path doc :
  open_path W path = Ret doc ->
  read_docx W path = Ret (join [newline] (map Docx.text doc)).
Proof. unfold read_docx. by intros ->. Qed.

(** [except Exception] lets [SystemExit] through. *)
Lemma try_except_exit {A} (handler : exn -> outcome A) code :
  try_except (SystemExit code) handler = SystemExit code.
Proof. reflexivity. Qed.

(** An unreadable job description ends the handler with [SystemExit]:
    no response is produced. *)
Lemma cover_letter_unreadable_job_description req f other e :
  files req !! lit "job_description" = Some f ->
  files req !! lit "resume" = Some other ->
  allowed_file U (filename f) = Ret true ->
  save_upload W f (path_join (UPLOAD_FOLDER W) (secure_filename W (filename f))) = Ret tt ->
  open_path W (path_join (UPLOAD_FOLDER W) (secure_filename W (filename f))) = Raise e ->
  generate_cover_letter_endpoint U W req = SystemExit 1.
Proof.
  intros Hf Ho Ha Hs Hopen. unfold generate_cover_letter_endpoint.
  rewrite Hf, Ho. cbn. rewrite Ha. cbn. rewrite Hs. cbn.
  by rewrite (read_docx_unreadable _ e Hopen).
Qed.

(** The sibling handler reports the same failure as a JSON error. *)
Lemma customize_resume_unreadable req f e :
  files req !! lit "resume" = Some f ->
  endswith (filename f) (lit ".docx") = true ->
  open_upload W f = Raise e ->
  customize_resume U W req = Ret (error 500 (exn_message e)).
Proof.
  intros Hf He Hopen. unfold customize_resume.
  rewrite Hf. cbn. rewrite He. cbn. by rewrite Hopen.
Qed.

Lemma write_docx_step_no_exit doc paragraph code :
  write_docx_step U doc paragraph <> SystemExit code.
Proof.
  unfold write_docx_step, add_text_paragraph.
  destruct (negb _); [destruct (xml_compatible _)|]; discriminate.
Qed.

Lemma write_docx_loop_no_exit pieces : forall doc code,
  for_each (write_docx_step U) doc pieces <> SystemExit code.
Proof.
  induction pieces as [|x pieces IH]; intros doc code; cbn; [discriminate|].
  destruct (write_docx_step U doc x) as [doc'|e|c] eqn:E; cbn;
    [apply IH | discriminate |].
  by destruct (write_docx_step_no_exit doc x c E).
Qed.

(** [write_docx] answers [False] when the document cannot be saved. *)
Lemma write_docx_failure content file_path :
  (forall doc, exists e, save_document W doc file_path = Raise e) ->
  write_docx U W content file_path = Ret false.
Proof.
  intros H. unfold write_docx.
  destruct (for_each (write_docx_step U) [] (split [newline] content))
    as [doc|e|c] eqn:E; cbn.
  - destruct (H doc) as [e ->]. reflexivity.
  - reflexivity.
  - by destruct (write_docx_loop_no_exit _ _ _ E).
Qed.

(** A successful answer of [customize_resume] always names the same
    file. *)
Lemma customize_resume_file_name req resp :
  customize_resume U W req = Ret resp ->
  status resp = 200%Z ->
  json resp = {[ lit "file_path" := lit "formatted_resume.docx" ]}.
Proof.
  unfold customize_resume.
  destruct (files req !! lit "resume") as [f|]; cbn;
    [|intros [= <-]; discriminate].
  destruct (endswith (filename f) (lit ".docx")); cbn;
    [|intros [= <-]; discriminate].
  destruct (open_upload W f) as [doc|e|c]; cbn;
    [|intros [= <-]; discriminate|discriminate].
  rewrite ResumeFacts.format_resume_eq. cbn.
  destruct (save_document W _ _) as [[]|e|c]; cbn;
    [|intros [= <-]; discriminate|discriminate].
  by intros [= <-].
Qed.

End WithWorld.

(** C4: the code departs from the specification. With a job description that the
    document parser rejects, [read_docx] calls [exit(1)]; the
    [SystemExit] passes the handler's [except Exception], so the request
    ends without any response. *)
Theorem unreadable_upload_raises_system_exit :
  generate_cover_letter_endpoint ascii_tables
    (demo_world noon [lit "uploads/jd.docx"] true) cover_letter_request
  = SystemExit 1
  /\ customize_resume ascii_tables (demo_world noon [] true) (resume_request [])
     = Ret (Response 500 {[ lit "error" := lit "File is not a zip file" ]}).
Proof. split; vm_compute; reflexivity. Qed.

(** C5: the code departs from the specification. When the output
    document cannot be saved, [write_docx] returns [False], the handler
    does not look at it, and the answer is the success message with
    status 200. The resume handler, whose save raises inside its [try],
    answers the same failure with an error. *)
Theorem failed_write_reports_success :
  write_docx ascii_tables (demo_world noon [] false)
    (lit "Dear Hiring Manager," ++ newline :: lit "Hire me.")
    (lit "outputs/cover_letter_20250309120005.docx") = Ret false
  /\ generate_cover_letter_endpoint ascii_tables
       (demo_world noon [] false) cover_letter_request
     = Ret (Response 200
              {[ lit "message" := lit "Cover letter generated successfully";
                 lit "file_path" := lit "cover_letter_20250309120005.docx" ]})
  /\ customize_resume ascii_tables (demo_world noon [] false) (resume_request [80; 75])
     = Ret (Response 500 {[ lit "error" := lit "Permission denied" ]}).
Proof. repeat split; vm_compute; reflexivity. Qed.

(** C9: the code departs from the specification on the resume task. Whatever
    the clock says, a reformatted resume is written to
    "formatted_resume.docx"; the cover-letter task does put the time of
    the request into the name. *)
Theorem resume_output_name_has_no_timestamp :
  (forall t,
     customize_resume ascii_tables (demo_world t [] true) (resume_request [80; 75])
     = Ret (Response 200 {[ lit "file_path" := lit "formatted_resume.docx" ]}))
  /\ generate_cover_letter_endpoint ascii_tables
       (demo_world noon [] true) cover_letter_request
     = Ret (Response 200
              {[ lit "message" := lit "Cover letter generated successfully";
                 lit "file_path" := lit "cover_letter_20250309120005.docx" ]})
  /\ generate_cover_letter_endpoint ascii_tables
       (demo_world later [] true) cover_letter_request
     = Ret (Response 200
              {[ lit "message" := lit "Cover letter generated successfully";
                 lit "file_path" := lit "cover_letter_20250309120006.docx" ]}).
Proof.
  split; [intros t | split]; vm_compute; reflexivity.
Qed.

End AppSpec.

(** ** Cover-letter mode *)

Module CoverLetterSpec.
Import Py PyFacts Docx CoverLetter.

#[local] Arguments store_last : simpl never.
#[local] Arguments add_paragraph : simpl never.
#[local] Arguments lit : simpl never.
#[local] Arguments strip : simpl never.
#[local] Arguments split : simpl never.

Section WithTables.
Context (U : Unicode).

Lemma add_content_blank document para :
  strip U para = [] -> add_content U document para = Ret document.
Proof. unfold add_content. by intros ->. Qed.

Lemma add_content_text document para :
  strip U para <> [] ->
  add_content U document para
  = Ret (document ++ [styled (lit "ContentStyle") (strip U para)]).
Proof.
  intros H. unfold add_content. destruct (strip U para) eqn:E; [done|].
  cbn. by rewrite ResumeFacts.store_last_add.
Qed.

(** The loop over the pieces adds one block per non-blank piece. *)
Lemma content_loop document pieces :
  for_each (add_content U) document pieces
  = Ret (document
         ++ map (fun para => styled (lit "ContentStyle") (strip U para))
                (filter (fun para => strip U para <> []) pieces)).
Proof.
  revert document. induction pieces as [|para pieces IH]; intros document.
  - cbn. by rewrite app_nil_r.
  - cbn [for_each]. destruct (decide (strip U para = [])) as [E|E].
    + rewrite filter_cons_False by (intros H; by apply H).
      rewrite add_content_blank by done. apply IH.
    + rewrite filter_cons_True by done.
      rewrite add_content_text by done.
      etrans; [apply IH|]. by rewrite <- app_assoc.
Qed.

End WithTables.



End CoverLetterSpec.

(** ** Further properties of [format_resume] *)

Module ResumeExtra.
Import Py PyFacts Docx Resume Classifier ResumeFacts.

Section WithTables.
Context (U : Unicode).

Lemma run_from_blocks content : forall st,
  exists rs blocks,
    roles (run_from U st content) = roles st ++ rs /\
    document (run_from U st content) = document st ++ blocks /\
    map style blocks = map style_name rs /\
    length blocks = length (filter (fun l => strip U (Docx.text l) <> []) content).
Proof.
  induction content as [|line content IH]; intros st.
  - exists [], []. cbn. by rewrite !app_nil_r.
  - rewrite run_from_cons.
    destruct (decide (strip U (Docx.text line) = [])) as [E|E].
    + rewrite step_blank by done.
      rewrite filter_cons_False by (intros H; by apply H). apply IH.
    + rewrite filter_cons_True by done.
      destruct (IH (step U st line)) as (rs & blocks & Hr & Hd & Hs & Hl).
      rewrite Hr, Hd. rewrite step_line by done. cbn [roles document].
      eexists (_ :: rs), (_ :: blocks). rewrite <- !app_assoc.
      split; [reflexivity|]. split; [reflexivity|].
      split; [cbn; by rewrite Hs | cbn; by rewrite Hl].
Qed.

Lemma run_from_filter content : forall st,
  run_from U st (filter (fun l => strip U (Docx.text l) <> []) content)
  = run_from U st content.
Proof.
  induction content as [|line content IH]; intros st; [done|].
  destruct (decide (strip U (Docx.text line) = [])) as [E|E].
  - rewrite filter_cons_False by (intros H; by apply H).
    rewrite run_from_cons, step_blank by done. apply IH.
  - rewrite filter_cons_True by done. rewrite !run_from_cons. apply IH.
Qed.

End WithTables.

(** X1: [format_resume] never raises: its tuple unpackings and its
    indexings are always within bounds. It leaves the paragraphs already
    in the document alone and appends one paragraph for each line that is
    not empty after trimming, styled by the role of the line. *)
Theorem format_resume_appends_one_block_per_line (U : Unicode)
    (content document : list paragraph) :
  exists st blocks,
    format_resume U content document = Ret st /\
    Resume.document st = document ++ blocks /\
    length blocks = length (filter (fun l => strip U (Docx.text l) <> []) content) /\
    map style blocks = map style_name (roles st).
Proof.
  destruct (run_from_blocks U content (initial document))
    as (rs & blocks & Hr & Hd & Hs & Hl).
  exists (run_from U (initial document) content), blocks.
  split; [apply format_resume_eq|]. split; [exact Hd|]. split; [exact Hl|].
  rewrite Hr. exact Hs.
Qed.

(** X2: lines that are empty after trimming are transparent: dropping
    them from the input changes neither the document produced nor the
    state of the classifier. *)
Theorem format_resume_ignores_blank_lines (U : Unicode)
    (content document : list paragraph) :
  format_resume U (filter (fun l => strip U (Docx.text l) <> []) content) document
  = format_resume U content document.
Proof. rewrite !format_resume_eq. by rewrite run_from_filter. Qed.

Lemma find_sep_first (sep s a b : str) :
  find_sep sep s = Some (a, b) ->
  forall a' b', s = a' ++ sep ++ b' -> (length a <= length a')%nat.
Proof.
  revert a. induction s as [|c s IH]; intros a; cbn [find_sep].
  - destruct (startswith [] sep); [|done]. intros [= <- _] a' b' _. cbn. lia.
  - destruct (startswith (c :: s) sep) eqn:E.
    + intros [= <- _] a' b' _. cbn. lia.
    + destruct (find_sep sep s) as [[a0 b0]|] eqn:F; [|done].
      intros [= <- <-] a' b' H. destruct a' as [|d a'].
      * cbn in H. rewrite H in E.
        assert (startswith (sep ++ b') sep = true) by (apply startswith_true; eauto).
        congruence.
      * injection H as _ H. cbn. specialize (IH a0 eq_refl a' b' H). lia.
Qed.

Lemma style_name_truthy (r : Role) : truthy (Some (style_name r)) = true.
Proof. by destruct r. Qed.

Lemma style_is_section (r : Role) :
  style_is (Some (style_name r)) (lit "SectionStyle") = true -> r = SectionHeader.
Proof. destruct r; cbn; intros H; done. Qed.

Section Placement.
Context (U : Unicode).

(** The state before a line, in a run that starts with no memory. *)
Lemma state_before pre document :
  let st := run_from U (initial document) pre in
  previous_style st = style_name <$> last (roles st) /\
  length (roles st) = length (filter (fun l => strip U (Docx.text l) <> []) pre) /\
  exists blocks, Resume.document st = document ++ blocks /\
                 length blocks = length (roles st).
Proof.
  cbn zeta. split; [by apply previous_style_run|].
  destruct (run_from_blocks U pre (initial document))
    as (rs & blocks & Hr & Hd & Hs & Hl).
  cbn [initial roles Resume.document app] in Hr, Hd.
  assert (Hlen : length blocks = length rs).
  { rewrite <- (length_map style blocks), Hs. apply length_map. }
  rewrite Hr. split; [congruence|]. exists blocks. split; [exact Hd | exact Hlen].
Qed.

Lemma truthy_previous pre document :
  truthy (previous_style (run_from U (initial document) pre))
  = negb (is_nil (filter (fun l => strip U (Docx.text l) <> []) pre)).
Proof.
  destruct (state_before pre document) as (Hp & Hl & _). rewrite Hp.
  destruct (filter _ pre) as [|x xs]; cbn [length] in Hl.
  - destruct (roles (run_from U (initial document) pre)); [done|discriminate].
  - destruct (roles (run_from U (initial document) pre)) as [|r rs] using rev_ind;
      [discriminate|].
    rewrite last_snoc. cbn [fmap option_fmap option_map]. apply style_name_truthy.
Qed.

Lemma not_first pre document :
  filter (fun l => strip U (Docx.text l) <> []) pre <> [] ->
  is_nil (Resume.document (run_from U (initial document) pre)) = false.
Proof.
  intros H. destruct (state_before pre document) as (_ & Hl & blocks & Hd & Hb).
  rewrite Hd. destruct blocks as [|b blocks].
  - cbn in Hb. rewrite <- Hb in Hl. destruct (filter _ pre); [done|discriminate].
  - by destruct document.
Qed.

Lemma role_of_not_name prev text : role_of U false prev text <> Name.
Proof.
  unfold role_of.
  repeat match goal with |- context [if ?b then _ else _] => destruct b end; done.
Qed.

Lemma role_of_needs_header first prev text :
  role_of U first prev text = InstitutionRow \/ role_of U first prev text = LabelValue ->
  style_is prev (lit "SectionStyle") = true.
Proof.
  unfold role_of.
  destruct (is_section U text); [by intros [|]|].
  destruct (is_contact text); [by intros [|]|].
  destruct first; [by intros [|]|].
  destruct (style_is prev (lit "SectionStyle")); [done|].
  rewrite !andb_false_l.
  destruct (startswith text [bullet]); intros [H|H]; discriminate H.
Qed.

End Placement.

(** X3: a line that is upper case and holds neither a bullet nor '@' is
    a SectionHeader wherever it stands. Its text is kept as it is, and it
    gets six points of space before it exactly when some non-empty line
    came before it. *)
Theorem section_header_anywhere (U : Unicode) (pre document : list paragraph)
    (line : paragraph) :
  is_section U (strip U (Docx.text line)) = true ->
  exists st,
    format_resume U (pre ++ [line]) document = Ret st /\
    last (roles st) = Some SectionHeader /\
    last (Resume.document st) =
      Some {| style := lit "SectionStyle";
              runs := [Run (strip U (Docx.text line)) false];
              space_before :=
                match filter (fun l => strip U (Docx.text l) <> []) pre with
                | [] => None
                | _ => Some 6
                end |}.
Proof.
  intros Hs. eexists. split; [apply format_resume_eq|].
  rewrite run_from_snoc, step_line by (by apply (is_section_nonempty U)).
  cbn zeta. rewrite role_of_section by done.
  cbn [roles Resume.document]. rewrite !last_snoc. split; [done|].
  unfold block_of. cbn [runs_of style_name]. rewrite truthy_previous.
  by destruct (filter _ pre).
Qed.

Lemma section_header_anywhere_witness :
  exists st,
    format_resume ascii_tables
      ([plain (lit "Jane Doe"); plain (lit "likes Rocq")] ++ [plain (lit " SKILLS & INTERESTS ")]) []
    = Ret st /\
    last (roles st) = Some SectionHeader /\
    last (Resume.document st) =
      Some {| style := lit "SectionStyle";
              runs := [Run (lit "SKILLS & INTERESTS") false];
              space_before := Some 6 |}.
Proof.
  apply (section_header_anywhere ascii_tables
           [plain (lit "Jane Doe"); plain (lit "likes Rocq")] []
           (plain (lit " SKILLS & INTERESTS "))).
  reflexivity.
Defined.

(** X4: a line that starts with a bullet, is not the first line, and
    holds neither '@' nor "University" is a BulletEntry. The text after
    the bullet is trimmed; if it holds " - ", it is cut at the first
    occurrence only, into a bold title and a plain description, both
    trimmed; if not, it follows the bold bullet as it is. *)
Theorem bullet_entry (U : Unicode) (pre document : list paragraph)
    (line : paragraph) :
  filter (fun l => strip U (Docx.text l) <> []) pre <> [] ->
  startswith (strip U (Docx.text line)) [bullet] = true ->
  contains [at_sign] (strip U (Docx.text line)) = false ->
  contains (lit "University") (strip U (Docx.text line)) = false ->
  exists st block,
    format_resume U (pre ++ [line]) document = Ret st /\
    last (roles st) = Some BulletEntry /\
    last (Resume.document st) = Some block /\
    style block = lit "ContentStyle" /\
    let rest := strip U (tail (strip U (Docx.text line))) in
    (contains (lit " - ") rest = false ->
       runs block = [Run (bullet :: lit " ") true; Run rest false]) /\
    (contains (lit " - ") rest = true ->
       exists title description,
         rest = title ++ lit " - " ++ description /\
         (forall a b, rest = a ++ lit " - " ++ b -> (length title <= length a)%nat) /\
         runs block = [Run (bullet :: lit " ") true; Run (strip U title) true;
                       Run (lit " - " ++ strip U description) false]).
Proof.
  intros Hpre Hb Hat Hu.
  set (text := strip U (Docx.text line)) in *.
  assert (Hne : text <> []) by (intros E; rewrite E in Hb; discriminate).
  assert (Hbul : bullet ∈ text).
  { apply startswith_true in Hb as [r ->]. set_solver. }
  assert (Hrole : forall prev, role_of U false prev text = BulletEntry).
  { intros prev. unfold role_of.
    rewrite (has_bullet_not_section U) by done.
    unfold is_contact. rewrite Hat, Hu, Hb. cbn. by rewrite andb_false_r. }
  do 2 eexists. split; [apply format_resume_eq|].
  rewrite run_from_snoc, step_line by done. cbn zeta. fold text.
  rewrite (not_first U pre document Hpre), Hrole.
  cbn [roles Resume.document]. rewrite !last_snoc.
  split; [done|]. split; [reflexivity|]. split; [reflexivity|].
  cbn [block_of runs runs_of]. split.
  - intros H. apply find_sep_None in H. by rewrite H.
  - intros H. apply split1_two in H as (title & description & F & _).
    exists title, description. rewrite F.
    split; [by apply find_sep_Some|]. split; [by apply (find_sep_first _ _ _ _ F)|done].
Qed.

Lemma bullet_entry_witness :
  exists st block,
    format_resume ascii_tables
      ([plain (lit "Jane Doe")] ++
       [plain (bullet :: lit "  Built - a thing  - reduced latency ")]) [] = Ret st /\
    last (roles st) = Some BulletEntry /\
    last (Resume.document st) = Some block /\
    style block = lit "ContentStyle" /\
    let rest := lit "Built - a thing  - reduced latency" in
    (contains (lit " - ") rest = false ->
       runs block = [Run (bullet :: lit " ") true; Run rest false]) /\
    (contains (lit " - ") rest = true ->
       exists title description,
         rest = title ++ lit " - " ++ description /\
         (forall a b, rest = a ++ lit " - " ++ b -> (length title <= length a)%nat) /\
         runs block = [Run (bullet :: lit " ") true; Run (strip ascii_tables title) true;
                       Run (lit " - " ++ strip ascii_tables description) false]).
Proof.
  apply (bullet_entry ascii_tables [plain (lit "Jane Doe")] []
           (plain (bullet :: lit "  Built - a thing  - reduced latency "))).
  - vm_compute. discriminate.
  - reflexivity.
  - reflexivity.
  - reflexivity.
Defined.

(** X5: only the first paragraph of the output document can be a Name:
    no later line is classified Name, and none at all when the document
    handed in already has paragraphs. *)
Theorem name_only_at_the_top (U : Unicode) (content document : list paragraph) :
  exists st,
    format_resume U content document = Ret st /\
    (Name ∉ tail (roles st)) /\
    (document <> [] -> Name ∉ roles st).
Proof.
  eexists. split; [apply format_resume_eq|].
  assert (H : forall content st, exists rs,
            roles (run_from U st content) = roles st ++ rs /\
            (Name ∉ tail rs) /\ (Resume.document st <> [] -> Name ∉ rs)).
  { clear. induction content as [|line content IH]; intros st.
    - exists []. rewrite app_nil_r. split; [done|]. split; [|intros _]; apply not_elem_of_nil.
    - rewrite run_from_cons.
      destruct (decide (strip U (Docx.text line) = [])) as [E|E].
      + rewrite step_blank by done. apply IH.
      + destruct (IH (step U st line)) as (rs & Hr & _ & Hn).
        rewrite step_line in Hr, Hn |- * by done.
        cbn zeta in Hr, Hn |- *. cbn [roles Resume.document] in Hr, Hn.
        assert (Hrs : Name ∉ rs) by (apply Hn; by destruct (Resume.document st)).
        eexists (_ :: rs). rewrite Hr, <- app_assoc. split; [reflexivity|].
        split; [exact Hrs|]. intros Hd.
        apply not_elem_of_cons. split; [|exact Hrs].
        apply is_nil_false in Hd. rewrite Hd. apply not_eq_sym, role_of_not_name. }
  destruct (H content (initial document)) as (rs & -> & Ht & Hd).
  cbn [initial roles Resume.document app]. split; [exact Ht | exact Hd].
Qed.

(** X6: an InstitutionRow or a LabelValue never stands first and always
    comes right after a SectionHeader. *)
Theorem rows_and_labels_follow_a_header (U : Unicode)
    (content document : list paragraph) :
  exists st,
    format_resume U content document = Ret st /\
    forall before r after,
      roles st = before ++ r :: after ->
      r = InstitutionRow \/ r = LabelValue ->
      last before = Some SectionHeader.
Proof.
  eexists. split; [apply format_resume_eq|].
  assert (H : forall content st,
            previous_style st = style_name <$> last (roles st) ->
            (forall before r after, roles st = before ++ r :: after ->
               r = InstitutionRow \/ r = LabelValue -> last before = Some SectionHeader) ->
            forall before r after,
              roles (run_from U st content) = before ++ r :: after ->
              r = InstitutionRow \/ r = LabelValue -> last before = Some SectionHeader).
  { clear. induction content as [|line content IH]; intros st Hp HP; [exact HP|].
    rewrite run_from_cons. apply IH; [by apply previous_style_step|].
    destruct (decide (strip U (Docx.text line) = [])) as [E|E];
      [by rewrite step_blank|].
    rewrite step_line by done. cbn [roles]. intros before r after Hr Hk.
    destruct after as [|x after _] using rev_ind.
    - change (before ++ [r]) with (before ++ [r]) in Hr.
      apply app_inj_tail in Hr as [<- <-].
      apply role_of_needs_header in Hk. rewrite Hp in Hk.
      destruct (last (roles st)) as [r0|]; [|discriminate Hk].
      cbn in Hk. by rewrite (style_is_section r0 Hk).
    - rewrite app_comm_cons, app_assoc in Hr.
      apply app_inj_tail in Hr as [Hr _]. by apply (HP before r after). }
  apply (H content (initial document)); [done|].
  intros before r after Hr. cbn in Hr. by destruct before.
Qed.

(** X7: an institution row in which no tab occurs is emitted as an empty
    paragraph: it gets the style "EducationStyle" and no run, so the text
    of the line does not reach the output document. *)
Theorem institution_row_without_tab (U : Unicode) (pre document : list paragraph)
    (header line : paragraph) :
  agrees_on_ascii U ->
  is_section U (strip U (Docx.text header)) = true ->
  contains (lit "University") (strip U (Docx.text line)) = true ->
  is_contact (strip U (Docx.text line)) = false ->
  tab ∉ strip U (Docx.text line) ->
  exists st,
    format_resume U (pre ++ [header; line]) document = Ret st /\
    last (roles st) = Some InstitutionRow /\
    last (Resume.document st) =
      Some {| style := lit "EducationStyle"; runs := []; space_before := None |}.
Proof.
  intros HU Hh Hu Hc Htab.
  set (text := strip U (Docx.text line)) in *.
  assert (Hs : is_section U text = false).
  { apply (has_lower_not_section U HU 110); [done | done |].
    apply contains_true in Hu as (a & b & ->). set_solver. }
  assert (Hne : text <> []).
  { apply contains_true in Hu as (a & b & H). intros E. rewrite E in H. by destruct a. }
  eexists. split; [apply format_resume_eq|].
  change (pre ++ [header; line]) with (pre ++ [header] ++ [line]).
  rewrite app_assoc, run_from_snoc, run_from_snoc.
  destruct (step_header U (run_from U (initial document) pre) header Hh)
    as (blocks & Hd & Hb & Hp & _).
  rewrite step_line by done. cbn zeta. fold text. rewrite Hd, Hp.
  assert (Hr : role_of U (is_nil blocks) (Some (lit "SectionStyle")) text = InstitutionRow).
  { unfold role_of. rewrite Hs, Hc, Hu. by destruct blocks. }
  rewrite Hr. cbn [roles Resume.document]. rewrite !last_snoc.
  split; [done|]. unfold block_of. cbn [runs_of style_name].
  by rewrite split_char_none.
Qed.

Lemma institution_row_without_tab_witness :
  exists st,
    format_resume ascii_tables
      ([plain (lit "Jane Doe")] ++
       [plain (lit "EDUCATION"); plain (lit "Stanford University, BS CS, 2022")]) []
    = Ret st /\
    last (roles st) = Some InstitutionRow /\
    last (Resume.document st) =
      Some {| style := lit "EducationStyle"; runs := []; space_before := None |}.
Proof.
  apply (institution_row_without_tab ascii_tables [plain (lit "Jane Doe")] []
           (plain (lit "EDUCATION")) (plain (lit "Stanford University, BS CS, 2022"))
           ascii_tables_agree eq_refl eq_refl eq_refl).
  vm_compute. intros H.
  repeat (apply elem_of_cons in H as [H|H]; [discriminate H|]).
  by apply elem_of_nil in H.
Defined.

End ResumeExtra.

(** ** Further properties of [format_cover_letter] *)

Module CoverLetterExtra.
Import Py PyFacts Docx CoverLetter.

#[local] Arguments store_last : simpl never.
#[local] Arguments add_paragraph : simpl never.
#[local] Arguments lit : simpl never.
#[local] Arguments strip : simpl never.
#[local] Arguments split : simpl never.
#[local] Arguments upper : simpl never.
#[local] Arguments Clock.strftime_long : simpl never.





End CoverLetterExtra.

(** ** Further properties of the file helpers and the handlers *)

Module AppExtra.
Import Py PyFacts Docx App Plain Demo.

#[local] Arguments endswith : simpl never.
#[local] Arguments startswith : simpl never.
#[local] Arguments contains : simpl never.
#[local] Arguments path_join : simpl never.
#[local] Arguments lit : simpl never.
#[local] Arguments strip : simpl never.
#[local] Arguments split : simpl never.
#[local] Arguments lower : simpl never.
#[local] Arguments Clock.strftime_compact : simpl never.

Lemma startswith_char (c x : N) (s : str) : startswith (x :: s) [c] = N.eqb c x.
Proof. cbn [Py.startswith]. apply andb_true_r. Qed.

Lemma find_sep_char_at (c : N) (a b : str) :
  c ∉ a -> find_sep [c] (a ++ c :: b) = Some (a, b).
Proof.
  intros Hc. induction a as [|x a IH].
  - cbn [app find_sep]. by rewrite startswith_char, N.eqb_refl.
  - cbn [app find_sep]. assert (Hx : N.eqb c x = false).
    { apply N.eqb_neq. intros ->. apply Hc. set_solver. }
    rewrite startswith_char, Hx, IH; [done|set_solver].
Qed.

Lemma rsplit1_dot (stem ext : str) :
  46 ∉ ext -> rsplit1 (lit ".") (stem ++ 46 :: ext) = [stem; ext].
Proof.
  intros H. unfold rsplit1. change (rev (lit ".")) with [46].
  rewrite rev_app_distr. cbn [rev]. rewrite <- app_assoc. cbn [app].
  rewrite find_sep_char_at by (by rewrite elem_of_rev).
  by rewrite !rev_involutive.
Qed.

Lemma allowed_file_no_dot (U : Unicode) (name : str) :
  46 ∉ name -> allowed_file U name = Ret false.
Proof.
  intros H. unfold allowed_file.
  destruct (contains (lit ".") name) eqn:E; [|done].
  change (lit ".") with [46] in E. apply contains_char in E. done.
Qed.

Lemma allowed_file_ext (U : Unicode) (stem ext : str) :
  46 ∉ ext ->
  allowed_file U (stem ++ 46 :: ext) = Ret (bool_decide (lower U ext = lit "docx")).
Proof.
  intros H. unfold allowed_file.
  assert (E : contains (lit ".") (stem ++ 46 :: ext) = true).
  { change (lit ".") with [46]. apply contains_char. set_solver. }
  rewrite E, rsplit1_dot by done. cbn. f_equal.
  apply bool_decide_ext. unfold ALLOWED_EXTENSIONS. set_solver.
Qed.

(** X10: [allowed_file] never raises. A name without a dot is refused;
    otherwise the part after the last dot decides, compared without
    regard to case with "docx". *)
Theorem allowed_file_by_extension (U : Unicode) :
  (forall name, 46 ∉ name -> allowed_file U name = Ret false) /\
  (forall stem ext, 46 ∉ ext ->
     allowed_file U (stem ++ 46 :: ext)
     = Ret (bool_decide (lower U ext = lit "docx"))).
Proof. split; [apply allowed_file_no_dot | apply allowed_file_ext]. Qed.

Section WithWorld.
Context (U : Unicode) (W : world).

Lemma write_docx_loop pieces : forall doc,
  for_each (write_docx_step U) doc pieces
  = let lines := map (strip U) (filter (fun line => strip U line <> []) pieces) in
    if forallb xml_compatible lines
    then Ret (doc ++ map plain lines)
    else Raise not_xml_compatible.
Proof.
  induction pieces as [|x pieces IH]; intros doc.
  - cbn. by rewrite app_nil_r.
  - cbn [for_each]. destruct (decide (strip U x = [])) as [E|E].
    + rewrite filter_cons_False by (intros H; by apply H).
      assert (S : write_docx_step U doc x = Ret doc)
        by (unfold write_docx_step; by rewrite E).
      rewrite S. apply IH.
    + rewrite filter_cons_True by done.
      assert (S : write_docx_step U doc x
                  = add_text_paragraph doc (strip U x))
        by (unfold write_docx_step; by destruct (strip U x)).
      rewrite S. unfold add_text_paragraph. cbn [map forallb].
      destruct (xml_compatible (strip U x)); [|reflexivity].
      etrans; [apply IH|]. cbn zeta. cbn [andb].
      destruct (forallb _ _); [|reflexivity]. by rewrite <- app_assoc.
Qed.

End WithWorld.

(** X11: [write_docx] adds one paragraph per line of the content that is
    not empty after trimming, trimmed, in order. When python-docx
    refuses one of them, the exception is caught and the answer is
    [False], whatever [save] would do. Otherwise the document is handed
    to [save], and the answer is [True] when the save returns and
    [False] when it raises. [write_docx] never raises an exception
    itself. *)
Theorem write_docx_saves_trimmed_lines (U : Unicode) (W : world)
    (content file_path : str) :
  write_docx U W content file_path =
  if forallb xml_compatible (written_lines U content)
  then match save_document W (map plain (written_lines U content)) file_path with
       | Ret _ => Ret true
       | Raise _ => Ret false
       | SystemExit code => SystemExit code
       end
  else Ret false.
Proof.
  unfold write_docx, written_lines. rewrite write_docx_loop. cbn zeta.
  destruct (forallb _ _); [|reflexivity]. cbn.
  destruct (save_document W _ file_path); reflexivity.
Qed.

(** A line with the control character U+0001 in it: nothing is saved,
    even on a disk that takes every file. *)
Lemma write_docx_refuses_control_character :
  write_docx ascii_tables (Demo.demo_world Demo.noon [] true)
    (lit "Dear Hiring Manager," ++ newline :: lit "Hello" ++ 1 :: lit "World")
    (lit "outputs/cover_letter.docx") = Ret false
  /\ write_docx ascii_tables (Demo.demo_world Demo.noon [] true)
       (lit "Dear Hiring Manager," ++ newline :: lit "Hello World")
       (lit "outputs/cover_letter.docx") = Ret true.
Proof. split; vm_compute; reflexivity. Qed.

Section WithPdf.
Context (U : Unicode).
Context (make_paragraph : str -> outcome flowable).

Lemma write_pdf_loop (mk : str -> flowable) pieces : forall story,
  (forall t, t ∈ map (strip U) (filter (fun line => strip U line <> []) pieces) ->
     make_paragraph t = Ret (mk t)) ->
  for_each (write_pdf_step U make_paragraph) story pieces
  = Ret (story ++ flat_map (fun t => [mk t; Spacer 1 12])
           (map (strip U) (filter (fun line => strip U line <> []) pieces))).
Proof.
  induction pieces as [|x pieces IH]; intros story Hmk.
  - cbn. by rewrite app_nil_r.
  - cbn [for_each]. destruct (decide (strip U x = [])) as [E|E].
    + rewrite filter_cons_False in Hmk |- * by (intros H; by apply H).
      assert (S : write_pdf_step U make_paragraph story x = Ret story)
        by (unfold write_pdf_step; by rewrite E).
      rewrite S. by apply IH.
    + rewrite filter_cons_True in Hmk |- * by done. cbn [map] in Hmk |- *.
      assert (S : write_pdf_step U make_paragraph story x
                  = Ret ((story ++ [mk (strip U x)]) ++ [Spacer 1 12])).
      { unfold write_pdf_step. rewrite (Hmk (strip U x)) by set_solver.
        by destruct (strip U x). }
      rewrite S. etrans; [apply IH; intros t Ht; apply Hmk; set_solver|].
      cbn [flat_map]. by rewrite <- !app_assoc.
Qed.

Lemma write_pdf_loop_fails pieces : forall story before t after e,
  map (strip U) (filter (fun line => strip U line <> []) pieces) = before ++ t :: after ->
  (forall x, x ∈ before -> exists p, make_paragraph x = Ret p) ->
  make_paragraph t = Raise e ->
  for_each (write_pdf_step U make_paragraph) story pieces = Raise e.
Proof.
  induction pieces as [|x pieces IH]; intros story before t after e Hl Hb Ht.
  - by destruct before.
  - cbn [for_each]. destruct (decide (strip U x = [])) as [E|E].
    + rewrite filter_cons_False in Hl by (intros H; by apply H).
      assert (S : write_pdf_step U make_paragraph story x = Ret story)
        by (unfold write_pdf_step; by rewrite E).
      rewrite S. by apply (IH _ before t after).
    + rewrite filter_cons_True in Hl by done. cbn [map] in Hl.
      destruct before as [|b before].
      * injection Hl as Hx _. unfold write_pdf_step. rewrite Hx, Ht.
        rewrite <- Hx. by destruct (strip U x).
      * injection Hl as Hx Hl. destruct (Hb b) as [p Hp]; [set_solver|].
        assert (S : write_pdf_step U make_paragraph story x
                    = Ret ((story ++ [p]) ++ [Spacer 1 12])).
        { unfold write_pdf_step. rewrite Hx, Hp. rewrite <- Hx. by destruct (strip U x). }
        rewrite S. apply (IH _ before t after); [done | | done].
        intros y Hy. apply Hb. set_solver.
Qed.

End WithPdf.

(** X12: when every line can be turned into a PDF paragraph,
    [write_pdf] builds a story that holds, for each line of the content
    that is not empty after trimming, its paragraph followed by a spacer
    of 12 points, and answers [True] or [False] as the build returns or
    raises. When the markup of some line is refused, it answers [False]
    whatever the build would have done. *)
Theorem write_pdf_story (U : Unicode)
    (make_paragraph : str -> outcome flowable)
    (build : str -> list flowable -> outcome unit) (content file_path : str) :
  (forall mk : str -> flowable,
     (forall t, t ∈ written_lines U content -> make_paragraph t = Ret (mk t)) ->
     write_pdf U make_paragraph build content file_path =
     match build file_path
             (flat_map (fun t => [mk t; Spacer 1 12]) (written_lines U content)) with
     | Ret _ => Ret true
     | Raise _ => Ret false
     | SystemExit code => SystemExit code
     end) /\
  (forall before t after e,
     written_lines U content = before ++ t :: after ->
     (forall x, x ∈ before -> exists p, make_paragraph x = Ret p) ->
     make_paragraph t = Raise e ->
     write_pdf U make_paragraph build content file_path = Ret false).
Proof.
  split.
  - intros mk Hmk. unfold write_pdf, written_lines in *.
    rewrite (write_pdf_loop U make_paragraph mk) by done. cbn.
    destruct (build file_path _); reflexivity.
  - intros before t after e Hl Hb Ht. unfold write_pdf, written_lines in *.
    by rewrite (write_pdf_loop_fails U make_paragraph _ [] before t after e).
Qed.

Lemma cleanup_files_ok (W : world) (file_paths : list str) :
  (forall path code, remove W path <> SystemExit code) ->
  cleanup_files W file_paths = Ret tt.
Proof.
  intros H. unfold cleanup_files.
  induction file_paths as [|path file_paths IH]; [done|].
  cbn [for_each].
  assert (S : cleanup_file W tt path = Ret tt).
  { unfold cleanup_file. destruct (path_exists W path); [|done].
    destruct (remove W path) as [[]|e|code] eqn:E; [done | done |].
    by destruct (H path code). }
  rewrite S. exact IH.
Qed.

(** X13: [cleanup_files] is best effort: whatever [os.remove] raises is
    swallowed, file by file, and the call returns. *)
Theorem cleanup_files_swallows_errors (W : world) (file_paths : list str) :
  (forall path code, remove W path <> SystemExit code) ->
  cleanup_files W file_paths = Ret tt.
Proof. apply cleanup_files_ok. Qed.

Lemma cleanup_files_swallows_errors_witness :
  cleanup_files
    {| UPLOAD_FOLDER := lit "uploads"; OUTPUT_FOLDER := lit "outputs";
       secure_filename := fun name => name;
       save_upload := fun _ _ => Ret tt;
       open_path := fun _ => Ret [];
       open_upload := fun _ => Ret [];
       save_document := fun _ _ => Ret tt;
       complete := fun _ _ _ _ _ => Ret [];
       path_exists := fun _ => true;
       remove := fun _ => Raise (LibraryError (lit "Permission denied"));
       now := noon |}
    [lit "uploads/jd.docx"; lit "uploads/cv.docx"] = Ret tt.
Proof.
  apply cleanup_files_swallows_errors. intros path code. discriminate.
Defined.

#[local] Arguments error : simpl never.
#[local] Arguments read_docx : simpl never.
#[local] Arguments write_docx : simpl never.
#[local] Arguments cleanup_files : simpl never.
#[local] Arguments allowed_file : simpl never.
#[local] Arguments generate_cover_letter : simpl never.
#[local] Arguments Resume.format_resume : simpl never.

(** Case analysis on the next call whose outcome decides [H]. *)
Ltac crack H :=
  repeat (cbn in H; unfold try_except, mbind, outcome_bind in H;
          match type of H with
          | context [match ?x with _ => _ end] =>
              lazymatch x with
              | context [match _ with _ => _ end] => fail
              | _ => destruct x eqn:?
              end
          end;
          cbn in H; try discriminate H).

Lemma cover_letter_success (U : Unicode) (W : world) (req : request) (resp : response) :
  generate_cover_letter_endpoint U W req = Ret resp ->
  status resp = 200%Z ->
  json resp =
    {[ lit "message" := lit "Cover letter generated successfully";
       lit "file_path" :=
         lit "cover_letter_" ++ Clock.strftime_compact (now W) ++ lit ".docx" ]}.
Proof.
  intros H Hs. unfold generate_cover_letter_endpoint in H.
  match type of H with
  | context [Response 200 ?m] => set (answer := m) in *
  end.
  crack H; try (injection H as <-; first [discriminate Hs | reflexivity]).
Qed.

(** X14: the only answer of the cover-letter handler with status 200 is
    the success message together with the name of the output file, which
    is "cover_letter_", the clock reading as fourteen digits, ".docx". *)
Theorem cover_letter_success_response (U : Unicode) (W : world)
    (req : request) (resp : response) :
  generate_cover_letter_endpoint U W req = Ret resp ->
  status resp = 200%Z ->
  json resp =
    {[ lit "message" := lit "Cover letter generated successfully";
       lit "file_path" :=
         lit "cover_letter_" ++ Clock.strftime_compact (now W) ++ lit ".docx" ]}.
Proof. apply cover_letter_success. Qed.

Lemma cover_letter_success_response_witness :
  json (Response 200
          {[ lit "message" := lit "Cover letter generated successfully";
             lit "file_path" := lit "cover_letter_20250309120005.docx" ]})
  = {[ lit "message" := lit "Cover letter generated successfully";
       lit "file_path" :=
         lit "cover_letter_" ++ Clock.strftime_compact noon ++ lit ".docx" ]}.
Proof.
  apply (cover_letter_success_response ascii_tables (demo_world noon [] true)
           cover_letter_request).
  - vm_compute. reflexivity.
  - reflexivity.
Defined.

Lemma decimal_expansion (n : N) :
  n / 100 = n / 10 / 10 /\ n / 1000 = n / 10 / 10 / 10 /\
  n = 10 * (n / 10) + n mod 10 /\
  n / 10 = 10 * (n / 10 / 10) + (n / 10) mod 10 /\
  n / 10 / 10 = 10 * (n / 10 / 10 / 10) + (n / 10 / 10) mod 10 /\
  n mod 10 < 10 /\ (n / 10) mod 10 < 10 /\ (n / 10 / 10) mod 10 < 10.
Proof.
  repeat split.
  - rewrite N.Div0.div_div. reflexivity.
  - rewrite !N.Div0.div_div. reflexivity.
  - apply N.div_mod. lia.
  - apply N.div_mod. lia.
  - apply N.div_mod. lia.
  - apply N.mod_lt. lia.
  - apply N.mod_lt. lia.
  - apply N.mod_lt. lia.
Qed.

Lemma dec2_inj (a b : N) : a < 100 -> b < 100 -> dec2 a = dec2 b -> a = b.
Proof.
  unfold dec2, digit. intros Ha Hb [= H1 H2].
  destruct (decimal_expansion a) as (_ & _ & A3 & _ & _ & A6 & _ & _).
  destruct (decimal_expansion b) as (_ & _ & B3 & _ & _ & B6 & _ & _).
  assert (a / 10 < 10) by (apply N.Div0.div_lt_upper_bound; lia).
  assert (b / 10 < 10) by (apply N.Div0.div_lt_upper_bound; lia).
  rewrite (N.mod_small (a / 10)) in H1 by lia.
  rewrite (N.mod_small (b / 10)) in H1 by lia. lia.
Qed.

Lemma dec4_inj (a b : N) : a < 10000 -> b < 10000 -> dec4 a = dec4 b -> a = b.
Proof.
  unfold dec4, digit. intros Ha Hb [= H1 H2 H3 H4].
  destruct (decimal_expansion a) as (A1 & A2 & A3 & A4 & A5 & A6 & A7 & A8).
  destruct (decimal_expansion b) as (B1 & B2 & B3 & B4 & B5 & B6 & B7 & B8).
  rewrite A1, B1 in H2. rewrite A2, B2 in H1.
  assert (a / 10 / 10 / 10 < 10)
    by (rewrite <- A2; apply N.Div0.div_lt_upper_bound; lia).
  assert (b / 10 / 10 / 10 < 10)
    by (rewrite <- B2; apply N.Div0.div_lt_upper_bound; lia).
  rewrite (N.mod_small (a / 10 / 10 / 10)) in H1 by lia.
  rewrite (N.mod_small (b / 10 / 10 / 10)) in H1 by lia.
  lia.
Qed.

(** X15: two cover letters get the same output file name exactly when
    the clock shows the same second for both: a later request in the same
    second overwrites the file of the earlier one, requests in different
    seconds never collide. *)
Theorem cover_letter_names_collide_within_a_second (U : Unicode)
    (W1 W2 : world) (req1 req2 : request) (resp1 resp2 : response) :
  ClockRange.fixed_width (now W1) -> ClockRange.fixed_width (now W2) ->
  generate_cover_letter_endpoint U W1 req1 = Ret resp1 -> status resp1 = 200%Z ->
  generate_cover_letter_endpoint U W2 req2 = Ret resp2 -> status resp2 = 200%Z ->
  (json resp1 !! lit "file_path" = json resp2 !! lit "file_path" <-> now W1 = now W2).
Proof.
  intros (Y1 & M1 & D1 & h1 & m1 & s1) (Y2 & M2 & D2 & h2 & m2 & s2) H1 S1 H2 S2.
  rewrite (cover_letter_success U W1 req1 resp1 H1 S1).
  rewrite (cover_letter_success U W2 req2 resp2 H2 S2).
  rewrite !lookup_insert_ne by done. rewrite !lookup_singleton_eq.
  split; [|by intros ->].
  intros E. apply (inj Some) in E. apply app_inv_head in E.
  unfold Clock.strftime_compact in E.
  apply app_inj_1 in E as [E _]; [|reflexivity].
  apply app_inj_1 in E as [Ey E]; [|reflexivity].
  apply app_inj_1 in E as [Em E]; [|reflexivity].
  apply app_inj_1 in E as [Ed E]; [|reflexivity].
  apply app_inj_1 in E as [Eh E]; [|reflexivity].
  apply app_inj_1 in E as [Emi Es]; [|reflexivity].
  apply dec4_inj in Ey; [|done..]. apply dec2_inj in Em, Ed, Eh, Emi, Es; [|done..].
  destruct (now W1), (now W2). cbn in *. congruence.
Qed.

Lemma cover_letter_names_collide_within_a_second_witness :
  (json (Response 200
           {[ lit "message" := lit "Cover letter generated successfully";
              lit "file_path" := lit "cover_letter_20250309120005.docx" ]})
     !! lit "file_path"
   = json (Response 200
             {[ lit "message" := lit "Cover letter generated successfully";
                lit "file_path" := lit "cover_letter_20250309120006.docx" ]})
     !! lit "file_path"
   <-> noon = later).
Proof.
  apply (cover_letter_names_collide_within_a_second ascii_tables
           (demo_world noon [] true) (demo_world later [] true)
           cover_letter_request cover_letter_request).
  - unfold ClockRange.fixed_width. cbn. lia.
  - unfold ClockRange.fixed_width. cbn. lia.
  - vm_compute. reflexivity.
  - reflexivity.
  - vm_compute. reflexivity.
  - reflexivity.
Defined.

(** Case analysis on the next call whose outcome decides the goal. *)
Ltac crack_goal :=
  repeat (cbn; unfold try_except, mbind, outcome_bind;
          match goal with
          | |- context [match ?x with _ => _ end] =>
              lazymatch x with
              | context [match _ with _ => _ end] => fail
              | _ => destruct x eqn:?
              end
          end).

Lemma last_dot (name : str) :
  46 ∈ name -> exists stem ext, name = stem ++ 46 :: ext /\ 46 ∉ ext.
Proof.
  induction name as [|x name IH]; [by intros ?%elem_of_nil|].
  intros Hin. destruct (decide (46 ∈ name)) as [H|H].
  - destruct (IH H) as (stem & ext & -> & Hext). by exists (x :: stem), ext.
  - apply elem_of_cons in Hin as [<-|Hin]; [|done]. by exists [], name.
Qed.

Lemma allowed_file_returns (U : Unicode) (name : str) :
  exists b, allowed_file U name = Ret b.
Proof.
  unfold allowed_file. destruct (contains (lit ".") name) eqn:E; [|eauto].
  change (lit ".") with [46] in E. apply contains_char in E.
  destruct (last_dot name E) as (stem & ext & -> & Hext).
  rewrite rsplit1_dot by done. cbn. eauto.
Qed.

Lemma read_docx_outcome (W : world) (path : str) :
  (forall p code, open_path W p <> SystemExit code) ->
  (exists text, read_docx W path = Ret text) \/ read_docx W path = SystemExit 1.
Proof.
  intros H. unfold read_docx, try_except, mbind, outcome_bind.
  destruct (open_path W path) as [doc|e|code] eqn:E; [left; eauto | by right |].
  by destruct (H path code).
Qed.

Lemma write_docx_returns (U : Unicode) (W : world) (content path : str) :
  (forall doc p code, save_document W doc p <> SystemExit code) ->
  exists b, write_docx U W content path = Ret b.
Proof.
  intros H. unfold write_docx. rewrite write_docx_loop. cbn zeta.
  destruct (forallb _ _); cbn; [|eauto].
  destruct (save_document W _ path) as [[]|e|code] eqn:E; cbn; eauto.
  by destruct (H _ _ _ E).
Qed.

Lemma generate_cover_letter_returns (W : world) (a b c d e : str) :
  (forall a b c d e code, complete W a b c d e <> SystemExit code) ->
  exists letter, generate_cover_letter W a b c d e = Ret letter.
Proof.
  intros H. unfold generate_cover_letter, try_except, mbind, outcome_bind.
  destruct (complete W a b c d e) as [text|err|code] eqn:E; cbn; eauto.
  by destruct (H _ _ _ _ _ _ E).
Qed.

(** Closes the cases in which a call is assumed to have ended in a way
    it cannot end. *)
Ltac impossible U W Hsu Hop Hou Hsd Hco Hrm :=
  match goal with
  | H : allowed_file _ ?n = _ |- _ =>
      destruct (allowed_file_returns U n) as [? ?]; congruence
  | H : read_docx _ ?p = Raise _ |- _ =>
      destruct (read_docx_outcome W p Hop) as [[? ?]|?]; congruence
  | H : write_docx _ _ ?c ?p = _ |- _ =>
      destruct (write_docx_returns U W c p Hsd) as [? ?]; congruence
  | H : generate_cover_letter _ ?a ?b ?c ?d ?e = _ |- _ =>
      destruct (generate_cover_letter_returns W a b c d e Hco) as [? ?]; congruence
  | H : cleanup_files _ ?l = _ |- _ =>
      pose proof (cleanup_files_ok W l Hrm); congruence
  | H : Resume.format_resume _ _ _ = _ |- _ =>
      rewrite ResumeFacts.format_resume_eq in H; discriminate H
  | H : save_upload _ _ _ = SystemExit _ |- _ => by destruct (Hsu _ _ _ H)
  | H : open_upload _ _ = SystemExit _ |- _ => by destruct (Hou _ _ H)
  | H : save_document _ _ _ = SystemExit _ |- _ => by destruct (Hsd _ _ _ H)
  end.

(** X16: when no library call ends the process, [customize_resume]
    always answers: every exception on the way becomes a JSON error, and
    the status is 200, 400 or 500. *)
Theorem customize_resume_always_answers (U : Unicode) (W : world) (req : request) :
  ClockRange.no_exit W ->
  exists resp,
    customize_resume U W req = Ret resp /\
    (status resp = 200 \/ status resp = 400 \/ status resp = 500)%Z.
Proof.
  intros (Hsu & Hop & Hou & Hsd & Hco & Hrm). unfold customize_resume.
  crack_goal;
    first [ impossible U W Hsu Hop Hou Hsd Hco Hrm
          | eexists; split; [reflexivity | unfold error; cbn; auto] ].
Qed.

(** X17: when no library call ends the process, the cover-letter
    handler never lets an exception escape: it answers with status 200,
    400 or 500, or it ends the process with exit code 1, which happens
    only through [read_docx]. *)
Theorem cover_letter_endpoint_outcomes (U : Unicode) (W : world) (req : request) :
  ClockRange.no_exit W ->
  (exists resp,
     generate_cover_letter_endpoint U W req = Ret resp /\
     (status resp = 200 \/ status resp = 400 \/ status resp = 500)%Z)
  \/ generate_cover_letter_endpoint U W req = SystemExit 1.
Proof.
  intros (Hsu & Hop & Hou & Hsd & Hco & Hrm). unfold generate_cover_letter_endpoint.
  crack_goal;
    first [ impossible U W Hsu Hop Hou Hsd Hco Hrm
          | left; eexists; split; [reflexivity | unfold error; cbn; auto]
          | right;
            match goal with
            | H : read_docx _ ?p = SystemExit _ |- _ =>
                destruct (read_docx_outcome W p Hop) as [[? ?]|?]; congruence
            end ].
Qed.

Lemma demo_world_no_exit (t : Clock.datetime) (unreadable : list str) (disk_ok : bool) :
  ClockRange.no_exit (demo_world t unreadable disk_ok).
Proof.
  unfold ClockRange.no_exit, demo_world. cbn. repeat split; intros; try discriminate.
  - by destruct (existsb _ _).
  - by destruct (Py.eqb _ _).
  - by destruct disk_ok.
Qed.

Lemma customize_resume_always_answers_witness :
  exists resp,
    customize_resume ascii_tables (demo_world noon [] false) (resume_request [80; 75])
    = Ret resp /\
    (status resp = 200 \/ status resp = 400 \/ status resp = 500)%Z.
Proof.
  apply (customize_resume_always_answers ascii_tables (demo_world noon [] false)
           (resume_request [80; 75])).
  apply demo_world_no_exit.
Defined.

Lemma cover_letter_endpoint_outcomes_witness :
  (exists resp,
     generate_cover_letter_endpoint ascii_tables
       (demo_world noon [lit "uploads/cv.docx"] true) cover_letter_request = Ret resp /\
     (status resp = 200 \/ status resp = 400 \/ status resp = 500)%Z)
  \/ generate_cover_letter_endpoint ascii_tables
       (demo_world noon [lit "uploads/cv.docx"] true) cover_letter_request
     = SystemExit 1.
Proof.
  apply (cover_letter_endpoint_outcomes ascii_tables
           (demo_world noon [lit "uploads/cv.docx"] true) cover_letter_request).
  apply demo_world_no_exit.
Defined.

(** X18: the two handlers disagree on an upper-case extension: a name
    ending in ".DOCX" passes [allowed_file], which lowers the extension,
    and is refused by [customize_resume], which compares the end of the
    name with ".docx" as it is. *)
Theorem upper_case_extension_divides_the_handlers (W : world)
    (stem : str) (payload : list N) (fields : gmap str str) :
  allowed_file ascii_tables (stem ++ lit ".DOCX") = Ret true /\
  customize_resume ascii_tables W
    {| files := {[ lit "resume" := Upload (stem ++ lit ".DOCX") payload ]};
       form := fields |}
  = Ret (error 400 (lit "Please upload a .docx file")).
Proof.
  split.
  - change (stem ++ lit ".DOCX") with (stem ++ 46 :: lit "DOCX").
    rewrite allowed_file_ext; [reflexivity|].
    intros H. repeat (apply elem_of_cons in H as [H|H]; [discriminate H|]).
    by apply elem_of_nil in H.
  - unfold customize_resume. cbn [files]. rewrite lookup_singleton_eq. cbn.
    assert (E : endswith (stem ++ lit ".DOCX") (lit ".docx") = false).
    { unfold endswith. rewrite rev_app_distr. reflexivity. }
    by rewrite E.
Qed.

End AppExtra.
